(** * bank_management_OOP: the ledger engine of [app.py]

    A shallow embedding of the classes [Client] and [Bank] and of the
    command loop [main].

    Modelling conventions.
    - The SQLite database behind [Bank.db_cursor] is an explicit value [Db]
      holding the two tables of [initialize_database].  A method of [Bank]
      takes the database and, when it returns, gives the database it has
      committed.
    - Amounts and balances are the binary64 numbers of Python's [float]
      (and of SQLite's REAL): Rocq's primitive [float] with its rounding
      [+], [-], unary [-] and the comparison [<=?].
    - Identifiers are Python integers, [Z].  SQLite holds signed 64-bit
      integers: binding another integer to a statement raises
      [OverflowError].  A NaN bound to a statement is stored as NULL, which
      the NOT NULL columns refuse: [IntegrityError].  A REAL column keeps
      every other number as it is, except that -0.0 is read back as 0.0
      (SQLite writes a REAL without fractional part as an integer).
    - No exception is caught anywhere in [app.py]: a method that raises has
      committed nothing, the program ends, and the uncommitted statements
      are rolled back.  A method therefore yields [Ok] with its results or
      [Raise] with the exception; a loop yields the state at its end, what
      was printed, and the exception that ended it, if any.
    - A [Client] object is a record.  Python mutates the object passed to
      [client_withdraw], [client_deposit] and [client_transfer]; here the
      mutated object is returned.  The object built by [find_client] is
      always a fresh one: it shares nothing with an older object of the
      same row.
    - The text Python produces when it formats a [float] is not computed:
      an f-string is kept as its literal parts and the floats formatted in
      between.  Integers are formatted (in decimal).
    - [print] is the list of lines written to standard output by the
      methods of [Bank] and by the two "not found" branches of [main]; the
      menu texts, the prompts and the diagnostic channels ([logging], [ic])
      are not represented.
    - [main] runs on the choices already read and converted: a list of menu
      choices with their values.  Input that [int], [float] or the enum
      constructors refuse ends the program with an exception and is not
      represented. *)

From Stdlib Require Import ZArith List String DecimalString Bool Lia Floats.
Import ListNotations.

Local Open Scope string_scope.
Local Open Scope list_scope.
Local Open Scope Z_scope.

(** ** Exceptions *)

(** The exceptions of [sqlite3] that the statements of [app.py] can raise. *)
Inductive exn : Type :=
| OverflowError
| IntegrityError.

(** A call returns a value or raises. *)
Inductive result (A : Type) : Type :=
| Ok (a : A)
| Raise (e : exn).

Arguments Ok {A} a.
Arguments Raise {A} e.

Definition bind {A B : Type} (r : result A) (k : A -> result B) : result B :=
  match r with
  | Ok a => k a
  | Raise e => Raise e
  end.

Notation "x <- r ;; k" := (bind r (fun x => k))
  (at level 61, r at next level, right associativity).

(** ** Storage: the tables created by [Bank.initialize_database] *)

(** A row of [clients (id, first_name, balance, occupation)]. *)
Record client_row : Type := mk_client_row {
  row_id : Z;
  row_first_name : string;
  row_balance : float;
  row_occupation : option string
}.

(** A row of [movements (id, client_id, action, amount)]. *)
Record movement_row : Type := mk_movement_row {
  mov_id : Z;
  mov_client_id : Z;
  mov_action : string;
  mov_amount : float
}.

(** The database: both tables in rowid order, and the counter that SQLite
    keeps for the AUTOINCREMENT key of [movements]. *)
Record Db : Type := mk_Db {
  clients : list client_row;
  movements : list movement_row;
  movements_seq : Z
}.

(** The file [bank.db] before the first run. *)
Definition empty_db : Db := mk_Db [] [] 0.

(** What a column of type REAL gives back for the number written to it:
    the number itself, but 0.0 for -0.0. *)
Definition stored_real (x : float) : float :=
  if (x =? 0)%float then 0%float else x.

(** The key SQLite gives to a row inserted without one into a table whose
    key is [INTEGER PRIMARY KEY] (no AUTOINCREMENT): one more than the
    largest key in use, 1 in an empty table.  (With the largest possible
    key, 2^63 - 1, in use SQLite tries unused keys at random instead; a
    table filled by [create_account] from the empty one never holds that
    key.) *)
Definition next_rowid (rows : list client_row) : Z :=
  match rows with
  | [] => 1
  | r :: rs => fold_left Z.max (map row_id rs) (row_id r) + 1
  end.

(** [INSERT INTO clients (first_name, balance, occupation) VALUES (?, ?, ?)] *)
Definition insert_client (db : Db) (first_name : string) (balance : float)
    (occupation : option string) : Db :=
  mk_Db (clients db ++
           [mk_client_row (next_rowid (clients db)) first_name (stored_real balance)
              occupation])
        (movements db) (movements_seq db).

(** [SELECT * FROM clients WHERE id=?] followed by [fetchone]. *)
Definition select_client (db : Db) (client_id : Z) : option client_row :=
  find (fun r => row_id r =? client_id) (clients db).

(** [UPDATE clients SET balance=? WHERE id=?] *)
Definition update_balance (db : Db) (balance : float) (client_id : Z) : Db :=
  mk_Db (map (fun r => if row_id r =? client_id
                       then mk_client_row (row_id r) (row_first_name r)
                              (stored_real balance) (row_occupation r)
                       else r) (clients db))
        (movements db) (movements_seq db).

(** [INSERT INTO movements (client_id, action, amount) VALUES (?, ?, ?)] *)
Definition insert_movement (db : Db) (client_id : Z) (action : string) (amount : float) : Db :=
  mk_Db (clients db)
        (movements db ++
           [mk_movement_row (movements_seq db + 1) client_id action (stored_real amount)])
        (movements_seq db + 1).

(** [DELETE FROM clients WHERE id=?] *)
Definition delete_client (db : Db) (client_id : Z) : Db :=
  mk_Db (filter (fun r => negb (row_id r =? client_id)) (clients db))
        (movements db) (movements_seq db).

(** [DELETE FROM movements WHERE client_id=?] *)
Definition delete_movements (db : Db) (client_id : Z) : Db :=
  mk_Db (clients db)
        (filter (fun m => negb (mov_client_id m =? client_id)) (movements db))
        (movements_seq db).

(** ** Executing a statement: parameters and constraints *)

(** The integers SQLite can hold. *)
Definition in_int64 (n : Z) : bool :=
  (- 2 ^ 63 <=? n) && (n <? 2 ^ 63).

(** Binding a Python integer to a statement. *)
Definition bind_int (n : Z) : result unit :=
  if in_int64 n then Ok tt else Raise OverflowError.

(** A row with this identifier is stored. *)
Definition has_row (db : Db) (client_id : Z) : bool :=
  match select_client db client_id with
  | Some _ => true
  | None => false
  end.

(** [execute("UPDATE clients SET balance=? WHERE id=?", (balance, id))]:
    the identifier must fit, and a NaN (stored as NULL) is refused by
    [balance REAL NOT NULL] as soon as a row is to be updated. *)
Definition execute_update_balance (db : Db) (balance : float) (client_id : Z)
    : result Db :=
  _ <- bind_int client_id ;;
  if is_nan balance && has_row db client_id
  then Raise IntegrityError
  else Ok (update_balance db balance client_id).

(** [execute("INSERT INTO movements (client_id, action, amount) VALUES
    (?, ?, ?)", (id, action, amount))]: the identifier must fit, and a NaN
    is refused by [amount REAL NOT NULL].  (Foreign keys are not enforced:
    the connection never switches them on.) *)
Definition execute_insert_movement (db : Db) (client_id : Z) (action : string)
    (amount : float) : result Db :=
  _ <- bind_int client_id ;;
  if is_nan amount
  then Raise IntegrityError
  else Ok (insert_movement db client_id action amount).

(** ** class [Client] *)

(** An f-string with floats in it: the literal parts and the floats that
    Python formats in between. *)
Inductive part : Type :=
| Lit (s : string)
| Float (x : float).

Definition fstring : Type := list part.

Module Client.

Record t : Type := mk {
  id : Z;
  first_name : string;
  balance : float;
  occupation : option string;
  movements : list fstring
}.

(** [Client.__init__]: the movement list always starts empty. *)
Definition init (id : Z) (first_name : string) (balance : float)
    (occupation : option string) : t :=
  mk id first_name balance occupation [].

(** [client.balance = b] *)
Definition set_balance (c : t) (b : float) : t :=
  mk (id c) (first_name c) b (occupation c) (movements c).

(** [client.movements.append(s)] *)
Definition append_movement (c : t) (s : fstring) : t :=
  mk (id c) (first_name c) (balance c) (occupation c) (movements c ++ [s]).

End Client.

(** ** Standard output *)

(** A printed line: a text without floats, an f-string with floats, or the
    tuple of a client row ([print(client)] in [show_all_clients]). *)
Inductive line : Type :=
| Text (s : string)
| Formatted (s : fstring)
| Tuple (r : client_row).

(** The text of an integer inside an f-string. *)
Definition fmt (n : Z) : string := NilZero.string_of_int (Z.to_int n).

(** ** class [Bank] *)

(** [Bank.create_account] *)
Definition create_account (db : Db) (first_name : string)
    (occupation : option string) : Db :=
  insert_client db first_name 0%float occupation.

(** [Bank.close_account] *)
Definition close_account (db : Db) (client_id : Z) : result Db :=
  _ <- bind_int client_id ;;
  Ok (delete_movements (delete_client db client_id) client_id).

(** [Bank.show_all_clients] *)
Definition show_all_clients (db : Db) : list line :=
  map Tuple (clients db).

(** [Bank.count_clients] *)
Definition count_clients (db : Db) : list line :=
  [Text ("Total clients: " ++ fmt (Z.of_nat (List.length (clients db))))%string].

(** [Bank.find_client] *)
Definition find_client (db : Db) (client_id : Z) : result (option Client.t) :=
  _ <- bind_int client_id ;;
  match select_client db client_id with
  | Some r =>
      Ok (Some (Client.init (row_id r) (row_first_name r) (row_balance r) (row_occupation r)))
  | None => Ok None
  end.

(** [Bank.client_withdraw]: the client object after the call, the database
    committed by the call, and what was printed. *)
Definition client_withdraw (db : Db) (client : Client.t) (amount : float)
    : result (Client.t * Db * list line) :=
  if (amount <=? Client.balance client)%float then
    let client := Client.set_balance client (Client.balance client - amount)%float in
    let client := Client.append_movement client [Lit "Withdrawn: -"; Float amount] in
    db <- execute_update_balance db (Client.balance client) (Client.id client) ;;
    db <- execute_insert_movement db (Client.id client) "Withdraw" (- amount)%float ;;
    Ok (client, db, [])
  else
    Ok (client, db, [Text "Insufficient funds."]).

(** [Bank.client_deposit] *)
Definition client_deposit (db : Db) (client : Client.t) (amount : float)
    : result (Client.t * Db * list line) :=
  let client := Client.set_balance client (Client.balance client + amount)%float in
  let client := Client.append_movement client [Lit "Deposited: +"; Float amount] in
  db <- execute_update_balance db (Client.balance client) (Client.id client) ;;
  db <- execute_insert_movement db (Client.id client) "Deposit" amount ;;
  Ok (client, db, []).

(** [Bank.client_transfer].  [client_to] is the object [find_client] has
    just built; it is dropped when the method returns. *)
Definition client_transfer (db : Db) (client_from : Client.t) (client_to_id : Z)
    (amount : float) : result (Client.t * Db * list line) :=
  client_to <- find_client db client_to_id ;;
  match client_to with
  | Some client_to =>
      if (amount <=? Client.balance client_from)%float then
        let client_from :=
          Client.set_balance client_from (Client.balance client_from - amount)%float in
        let client_to :=
          Client.set_balance client_to (Client.balance client_to + amount)%float in
        let client_from :=
          Client.append_movement client_from
            [Lit ("Transfer to " ++ fmt client_to_id ++ ": -")%string; Float amount] in
        let client_to :=
          Client.append_movement client_to
            [Lit ("Transfer from " ++ fmt (Client.id client_from) ++ ": +")%string;
             Float amount] in
        db <- execute_update_balance db (Client.balance client_from) (Client.id client_from) ;;
        db <- execute_update_balance db (Client.balance client_to) (Client.id client_to) ;;
        db <- execute_insert_movement db (Client.id client_from) "Transfer Out"
                (- amount)%float ;;
        db <- execute_insert_movement db (Client.id client_to) "Transfer In" amount ;;
        Ok (client_from, db, [])
      else
        Ok (client_from, db, [Text "Insufficient funds."])
  | None =>
      Ok (client_from, db, [Text "Client to transfer to not found."])
  end.

(** [Bank.client_check_balance] *)
Definition client_check_balance (client : Client.t) : list line :=
  [Formatted [Lit ("Client ID " ++ fmt (Client.id client) ++ " balance: ")%string;
              Float (Client.balance client)]].

(** [Bank.client_show_movements] *)
Definition client_show_movements (client : Client.t) : list line :=
  Text ("Client ID " ++ fmt (Client.id client) ++ " movements:")%string
  :: map Formatted (Client.movements client).

(** ** [main]: the command loop *)

(** One pass of the inner loop of [main]: the menu choice of
    [show_client_menu] with the values read for it.  The choice EXIT is the
    end of the list of a session. *)
Inductive ClientActions : Type :=
| WITHDRAW (amount : float)
| DEPOSIT (amount : float)
| TRANSFER (transfer_id : Z) (amount : float)
| CHECK_BALANCE
| SHOW_MOVEMENTS.

(** One pass of the outer loop of [main]: the menu choice of [show_menu]
    with the values read for it; [CLIENT_ACTIONS] carries the choices made
    in the client menu until its EXIT. *)
Inductive BankActions : Type :=
| CREATE_ACCOUNT (first_name : string) (occupation : string)
| CLOSE_ACCOUNT (client_id : Z)
| SHOW_ALL_CLIENTS
| COUNT_CLIENTS
| CLIENT_ACTIONS (client_id : Z) (session : list ClientActions)
| EXIT.

(** How a loop ended: the state it had reached (for the database: what is
    committed), the lines printed, and the exception that ended the
    program, if one was raised. *)
Record ended (S : Type) : Type := Ended {
  final : S;
  printed : list line;
  raised : option exn
}.

Arguments Ended {S} final printed raised.
Arguments final {S} e.
Arguments printed {S} e.
Arguments raised {S} e.

(** The body of the inner [while True] for one choice. *)
Definition client_step (db : Db) (client : Client.t) (a : ClientActions)
    : result (Client.t * Db * list line) :=
  match a with
  | WITHDRAW amount => client_withdraw db client amount
  | DEPOSIT amount => client_deposit db client amount
  | TRANSFER transfer_id amount => client_transfer db client transfer_id amount
  | CHECK_BALANCE => Ok (client, db, client_check_balance client)
  | SHOW_MOVEMENTS => Ok (client, db, client_show_movements client)
  end.

(** The inner loop, until EXIT or an exception.  An exception ends the
    program: the database is the one committed before the call that
    raised, and the client object is given as it was before that call. *)
Fixpoint client_loop (db : Db) (client : Client.t) (session : list ClientActions)
    : ended (Client.t * Db) :=
  match session with
  | [] => Ended (client, db) [] None
  | a :: rest =>
      match client_step db client a with
      | Ok (client', db', out) =>
          let r := client_loop db' client' rest in
          Ended (final r) (out ++ printed r) (raised r)
      | Raise e => Ended (client, db) [] (Some e)
      end
  end.

(** The body of the outer [while True] for one choice: [None] when the
    choice is EXIT. *)
Definition bank_step (db : Db) (a : BankActions) : option (ended Db) :=
  match a with
  | CREATE_ACCOUNT first_name occupation =>
      Some (Ended (create_account db first_name (Some occupation)) [] None)
  | CLOSE_ACCOUNT client_id =>
      match close_account db client_id with
      | Ok db' => Some (Ended db' [] None)
      | Raise e => Some (Ended db [] (Some e))
      end
  | SHOW_ALL_CLIENTS => Some (Ended db (show_all_clients db) None)
  | COUNT_CLIENTS => Some (Ended db (count_clients db) None)
  | CLIENT_ACTIONS client_id session =>
      match find_client db client_id with
      | Ok (Some client) =>
          let r := client_loop db client session in
          Some (Ended (snd (final r)) (printed r) (raised r))
      | Ok None => Some (Ended db [Text "Client not found."] None)
      | Raise e => Some (Ended db [] (Some e))
      end
  | EXIT => None
  end.

(** [main] on the choices typed in, from the database [db]: the database
    committed and the output when the input is used up, EXIT was chosen or
    an exception ended the program. *)
Fixpoint main (db : Db) (input : list BankActions) : ended Db :=
  match input with
  | [] => Ended db [] None
  | a :: rest =>
      match bank_step db a with
      | Some r =>
          match raised r with
          | Some _ => r
          | None =>
              let r' := main (final r) rest in
              Ended (final r') (printed r ++ printed r') (raised r')
          end
      | None => Ended db [] None
      end
  end.

(** ** Observations on the persisted state *)

(** The database a call leaves behind: the one it committed, or the one
    it found when it raised. *)
Definition committed (db : Db) (r : result (Client.t * Db * list line)) : Db :=
  match r with
  | Ok (_, db', _) => db'
  | Raise _ => db
  end.

(** The persisted balance of an account, when the account exists. *)
Definition persisted_balance (db : Db) (client_id : Z) : option float :=
  option_map row_balance (select_client db client_id).

(** The movements recorded for an account, in creation order. *)
Definition movements_of (db : Db) (client_id : Z) : list movement_row :=
  filter (fun m => mov_client_id m =? client_id) (movements db).

(** The sum of the signed amounts of the movements of an account, added
    one by one in creation order, from 0.0. *)
Definition movement_sum (db : Db) (client_id : Z) : float :=
  fold_left (fun acc m => (acc + mov_amount m)%float) (movements_of db client_id) 0%float.

(** What the statements of a successful withdrawal, deposit and transfer
    store. *)
Definition withdrawn (db : Db) (c : Client.t) (amount : float) : Db :=
  insert_movement
    (update_balance db (Client.balance c - amount)%float (Client.id c))
    (Client.id c) "Withdraw" (- amount)%float.

Definition deposited (db : Db) (c : Client.t) (amount : float) : Db :=
  insert_movement
    (update_balance db (Client.balance c + amount)%float (Client.id c))
    (Client.id c) "Deposit" amount.

Definition transferred (db : Db) (c client_to : Client.t) (amount : float) : Db :=
  insert_movement
    (insert_movement
       (update_balance
          (update_balance db (Client.balance c - amount)%float (Client.id c))
          (Client.balance client_to + amount)%float (Client.id client_to))
       (Client.id c) "Transfer Out" (- amount)%float)
    (Client.id client_to) "Transfer In" amount.

(** The client object after a successful withdrawal, deposit and transfer. *)
Definition withdrawer (c : Client.t) (amount : float) : Client.t :=
  Client.append_movement
    (Client.set_balance c (Client.balance c - amount)%float)
    [Lit "Withdrawn: -"; Float amount].

Definition depositor (c : Client.t) (amount : float) : Client.t :=
  Client.append_movement
    (Client.set_balance c (Client.balance c + amount)%float)
    [Lit "Deposited: +"; Float amount].

Definition sender (c : Client.t) (client_to_id : Z) (amount : float) : Client.t :=
  Client.append_movement
    (Client.set_balance c (Client.balance c - amount)%float)
    [Lit ("Transfer to " ++ fmt client_to_id ++ ": -")%string; Float amount].

(** What one choice of the client menu does when its call returns: nothing
    (a read, or a refusal), or the statements of one of the three
    operations, none of which has raised. *)
Inductive effect (db : Db) (c : Client.t) : ClientActions -> Client.t -> Db -> Prop :=
| effect_none (a : ClientActions) :
    effect db c a c db
| effect_withdraw (amount : float) :
    (amount <=? Client.balance c)%float = true ->
    in_int64 (Client.id c) = true ->
    is_nan (Client.balance c - amount)%float = false \/ has_row db (Client.id c) = false ->
    effect db c (WITHDRAW amount) (withdrawer c amount) (withdrawn db c amount)
| effect_deposit (amount : float) :
    in_int64 (Client.id c) = true ->
    is_nan (Client.balance c + amount)%float = false \/ has_row db (Client.id c) = false ->
    effect db c (DEPOSIT amount) (depositor c amount) (deposited db c amount)
| effect_transfer (client_to_id : Z) (amount : float) (client_to : Client.t) :
    find_client db client_to_id = Ok (Some client_to) ->
    (amount <=? Client.balance c)%float = true ->
    in_int64 (Client.id c) = true ->
    is_nan (Client.balance c - amount)%float = false \/ has_row db (Client.id c) = false ->
    is_nan (Client.balance client_to + amount)%float = false ->
    effect db c (TRANSFER client_to_id amount)
      (sender c client_to_id amount) (transferred db c client_to amount).

(** ** Predicates on runs and states *)

(** The two read-only choices of the client menu. *)
Definition is_read (a : ClientActions) : bool :=
  match a with
  | CHECK_BALANCE | SHOW_MOVEMENTS => true
  | _ => false
  end.

(** Every persisted balance is non-negative. *)
Definition nonneg_balances (db : Db) : Prop :=
  Forall (fun r => (0 <=? row_balance r)%float = true) (clients db).

(** The amount deposited or transferred by the choice is not negative (an
    amount withdrawn may be any number). *)
Definition amount_nonneg (a : ClientActions) : bool :=
  match a with
  | DEPOSIT amount | TRANSFER _ amount => negb (amount <? 0)%float
  | WITHDRAW _ | CHECK_BALANCE | SHOW_MOVEMENTS => true
  end.

Definition amounts_nonneg (a : BankActions) : bool :=
  match a with
  | CLIENT_ACTIONS _ session => forallb amount_nonneg session
  | _ => true
  end.

(** Neither a row nor a movement of the account is stored. *)
Definition absent (db : Db) (cid : Z) : Prop :=
  select_client db cid = None /\ movements_of db cid = [].

(** The choice is not "Create Account". *)
Definition no_create (a : BankActions) : bool :=
  match a with
  | CREATE_ACCOUNT _ _ => false
  | _ => true
  end.

(** The identifiers that the choices "Create Account" of a run of [main]
    receive, in order. *)
Fixpoint created_ids (db : Db) (input : list BankActions) : list Z :=
  match input with
  | [] => []
  | a :: rest =>
      match bank_step db a with
      | Some r =>
          match a with
          | CREATE_ACCOUNT _ _ => [next_rowid (clients db)]
          | _ => []
          end
          ++ match raised r with
             | Some _ => []
             | None => created_ids (final r) rest
             end
      | None => []
      end
  end.

(** Every persisted balance is the sum of the movements of its account. *)
Definition reconciled (db : Db) : Prop :=
  forall r, In r (clients db) -> row_balance r = movement_sum db (row_id r).

(** The choice is not a transfer to the account [k] itself. *)
Definition not_to_self (k : Z) (a : ClientActions) : bool :=
  match a with
  | TRANSFER transfer_id _ => negb (transfer_id =? k)
  | _ => true
  end.

(** ** Further observations *)

(** What [count_clients] counts: [SELECT COUNT( * ) FROM clients]. *)
Definition client_count (db : Db) : nat := List.length (clients db).

(** Every movement belongs to an account that has a row. *)
Definition no_orphans (db : Db) : Prop :=
  forall m, In m (movements db) -> select_client db (mov_client_id m) <> None.

(** No two rows of [clients] carry the same identifier. *)
Definition unique_ids (db : Db) : Prop :=
  NoDup (map row_id (clients db)).

(** No two rows of [movements] carry the same identifier, and none lies
    above the AUTOINCREMENT counter. *)
Definition movement_ids_ok (db : Db) : Prop :=
  NoDup (map mov_id (movements db)) /\
  forall m, In m (movements db) -> mov_id m <= movements_seq db.

(** The object of a session shows the balance stored in its row: the two
    are the same number, but for the sign of a zero, which a REAL column
    does not keep. *)
Definition mirrors (db : Db) (c : Client.t) : Prop :=
  exists b, persisted_balance db (Client.id c) = Some b /\
            stored_real b = stored_real (Client.balance c).

(** The object shows exactly the stored balance, which is not -0.0. *)
Definition shows_stored (db : Db) (c : Client.t) : Prop :=
  persisted_balance db (Client.id c) = Some (Client.balance c) /\
  stored_real (Client.balance c) = Client.balance c.


(** Two client objects for the same account state: the same identifier
    and the same balance, but for the sign of a zero. *)
Definition same_account (c c' : Client.t) : Prop :=
  Client.id c = Client.id c' /\
  stored_real (Client.balance c) = stored_real (Client.balance c').

(** ** Signs of binary64 values *)

(** The value has the sign [s] and is not NaN. *)
Definition SFsigned (s : bool) (x : spec_float) : Prop :=
  match x with
  | S754_zero s' | S754_infinity s' | S754_finite s' _ _ => s' = s
  | S754_nan => False
  end.

(** The value is not NaN and not below zero. *)
Definition SFnonneg (x : spec_float) : Prop :=
  match x with
  | S754_zero _ => True
  | S754_infinity s | S754_finite s _ _ => s = false
  | S754_nan => False
  end.

(** ** The menus *)

(** [class BankActions(Enum)]: the members, their values, and the lookup by
    value [BankActions(choice)], which raises [ValueError] ([None] here)
    for a value no member has. *)
Module BankMenu.

Inductive t : Type :=
| CREATE_ACCOUNT
| CLOSE_ACCOUNT
| SHOW_ALL_CLIENTS
| COUNT_CLIENTS
| CLIENT_ACTIONS
| EXIT.

Definition value (m : t) : Z :=
  match m with
  | CREATE_ACCOUNT => 1
  | CLOSE_ACCOUNT => 2
  | SHOW_ALL_CLIENTS => 3
  | COUNT_CLIENTS => 4
  | CLIENT_ACTIONS => 5
  | EXIT => 6
  end.

Definition members : list t :=
  [CREATE_ACCOUNT; CLOSE_ACCOUNT; SHOW_ALL_CLIENTS; COUNT_CLIENTS; CLIENT_ACTIONS; EXIT].

Definition of_value (choice : Z) : option t :=
  find (fun m => value m =? choice) members.

(** [action == BankActions.X] *)
Definition eqb (m m' : t) : bool := value m =? value m'.

End BankMenu.

(** [class ClientActions(Enum)] *)
Module ClientMenu.

Inductive t : Type :=
| WITHDRAW
| DEPOSIT
| TRANSFER
| CHECK_BALANCE
| SHOW_MOVEMENTS
| EXIT.

Definition value (m : t) : Z :=
  match m with
  | WITHDRAW => 1
  | DEPOSIT => 2
  | TRANSFER => 3
  | CHECK_BALANCE => 4
  | SHOW_MOVEMENTS => 5
  | EXIT => 6
  end.

Definition members : list t :=
  [WITHDRAW; DEPOSIT; TRANSFER; CHECK_BALANCE; SHOW_MOVEMENTS; EXIT].

Definition of_value (choice : Z) : option t :=
  find (fun m => value m =? choice) members.

(** [client_action == ClientActions.X] *)
Definition eqb (m m' : t) : bool := value m =? value m'.

End ClientMenu.

(** [Bank.show_menu] once [int(input(...))] has given [choice]. *)
Definition show_menu (choice : Z) : option BankMenu.t :=
  BankMenu.of_value choice.

(** [Bank.show_client_menu] once [int(input(...))] has given [choice]. *)
Definition show_client_menu (choice : Z) : option ClientMenu.t :=
  ClientMenu.of_value choice.

(** The branch the [if]/[elif] chain of the outer loop of [main] takes:
    the number of the branch in source order, 7 for the final [else]
    that prints "Invalid action.". *)
Definition main_branch (action : BankMenu.t) : Z :=
  if BankMenu.eqb action BankMenu.CREATE_ACCOUNT then 1
  else if BankMenu.eqb action BankMenu.CLOSE_ACCOUNT then 2
  else if BankMenu.eqb action BankMenu.SHOW_ALL_CLIENTS then 3
  else if BankMenu.eqb action BankMenu.COUNT_CLIENTS then 4
  else if BankMenu.eqb action BankMenu.CLIENT_ACTIONS then 5
  else if BankMenu.eqb action BankMenu.EXIT then 6
  else 7.

(** The branch the chain of the inner loop takes, 7 for its [else]. *)
Definition client_branch (client_action : ClientMenu.t) : Z :=
  if ClientMenu.eqb client_action ClientMenu.WITHDRAW then 1
  else if ClientMenu.eqb client_action ClientMenu.DEPOSIT then 2
  else if ClientMenu.eqb client_action ClientMenu.TRANSFER then 3
  else if ClientMenu.eqb client_action ClientMenu.CHECK_BALANCE then 4
  else if ClientMenu.eqb client_action ClientMenu.SHOW_MOVEMENTS then 5
  else if ClientMenu.eqb client_action ClientMenu.EXIT then 6
  else 7.

(** ** Concrete states used in the examples *)

(** Alice holds account 1 with balance 100 after one deposit. *)
Definition alice_db : Db :=
  final (main empty_db [CREATE_ACCOUNT "Alice" ""; CLIENT_ACTIONS 1 [DEPOSIT 100]]).

(** The object [find_client] builds for account 1 of [alice_db]. *)
Definition alice : Client.t := Client.init 1 "Alice" 100 (Some "").

(** Alice (account 1) and Bob (account 2), both with balance 0. *)
Definition alice_bob_db : Db :=
  final (main empty_db [CREATE_ACCOUNT "Alice" ""; CREATE_ACCOUNT "Bob" ""]).

(** The object [find_client] builds for account 1 of [alice_bob_db]. *)
Definition alice0 : Client.t := Client.init 1 "Alice" 0 (Some "").

(** Account 1 after a deposit of -10. *)
Definition overdrawn_db : Db :=
  final (main empty_db [CREATE_ACCOUNT "Alice" ""; CLIENT_ACTIONS 1 [DEPOSIT (-10)]]).

(** The object [find_client] builds for account 1 of [overdrawn_db]. *)
Definition overdrawn : Client.t := Client.init 1 "Alice" (-10) (Some "").

(** Alice (account 1, balance 100) and Bob (account 2, balance 0). *)
Definition alice100_bob_db : Db :=
  final (main empty_db
           [CREATE_ACCOUNT "Alice" ""; CREATE_ACCOUNT "Bob" ""; CLIENT_ACTIONS 1 [DEPOSIT 100]]).

(** Account 1 after a deposit of 1e16, a number whose neighbours among the
    binary64 numbers are 2 apart. *)
Definition rich_db : Db :=
  final (main empty_db [CREATE_ACCOUNT "Alice" ""; CLIENT_ACTIONS 1 [DEPOSIT 1e16]]).

(** The object [find_client] builds for account 1 of [rich_db]. *)
Definition rich : Client.t := Client.init 1 "Alice" 1e16 (Some "").

(** Account 1 after a deposit of [float("inf")]. *)
Definition endless_db : Db :=
  final (main empty_db [CREATE_ACCOUNT "Alice" ""; CLIENT_ACTIONS 1 [DEPOSIT infinity]]).

(** The object [find_client] builds for account 1 of [endless_db]. *)
Definition endless : Client.t := Client.init 1 "Alice" infinity (Some "").

(** ** Double-precision arithmetic *)

(** Facts on the specification of the binary64 operations. *)
Section SpecFacts.

Lemma iter_pos_keeps {A : Type} (P : A -> Prop) (f : A -> A) :
  (forall x, P x -> P (f x)) -> forall n x, P x -> P (iter_pos f n x).
Proof.
  intros Hf. induction n as [n IH|n IH|]; intros x Hx; cbn [iter_pos]; auto.
Qed.

Lemma shr_1_nonneg (mrs : shr_record) : 0 <= shr_m mrs -> 0 <= shr_m (shr_1 mrs).
Proof.
  destruct mrs as [m r s]. cbn [shr_m]. intros H.
  destruct m as [|[p|p|]|p]; cbn; lia.
Qed.

Lemma shr_fexp_nonneg (m e : Z) (l : location) :
  0 <= m -> 0 <= shr_m (fst (shr_fexp prec emax m e l)).
Proof.
  intros H. unfold shr_fexp, shr.
  assert (H0 : 0 <= shr_m (shr_record_of_loc m l)) by (destruct l as [|[]]; exact H).
  destruct (fexp prec emax (Zdigits2 m + e) - e) as [|p|p]; cbn [fst]; try exact H0.
  now apply (iter_pos_keeps (fun x => 0 <= shr_m x) shr_1 shr_1_nonneg).
Qed.

Lemma round_nearest_even_nonneg (m : Z) (l : location) :
  0 <= m -> 0 <= round_nearest_even m l.
Proof.
  intros H. destruct l as [|[]]; cbn; try lia. destruct (Z.even m); lia.
Qed.

Lemma binary_round_aux_signed (s : bool) (m e : Z) (l : location) :
  0 <= m -> SFsigned s (binary_round_aux prec emax s m e l).
Proof.
  intros H. unfold binary_round_aux.
  pose proof (shr_fexp_nonneg m e l H) as H1.
  destruct (shr_fexp prec emax m e l) as [mrs1 e1]. cbn [fst] in H1.
  pose proof (shr_fexp_nonneg _ e1 loc_Exact
                (round_nearest_even_nonneg _ (loc_of_shr_record mrs1) H1)) as H2.
  destruct (shr_fexp prec emax _ e1 loc_Exact) as [mrs2 e2]. cbn [fst] in H2.
  destruct (shr_m mrs2) as [|p|p]; [reflexivity| |cbn in H2; lia].
  destruct (e2 <=? emax - prec); reflexivity.
Qed.

Lemma binary_normalize_nonneg (m e : Z) :
  0 <= m -> SFsigned false (binary_normalize prec emax m e false).
Proof.
  intros H. destruct m as [|p|p]; cbn [binary_normalize]; [reflexivity| |lia].
  unfold binary_round. destruct (shl_align _ _ _) as [mz ez].
  apply binary_round_aux_signed. lia.
Qed.

Lemma SFnonneg_leb (x : spec_float) :
  SFnonneg x <-> SFleb (S754_zero false) x = true.
Proof.
  destruct x as [s|s| |s m e]; cbn; try (destruct s); split; intros H;
    try reflexivity; try discriminate; try contradiction; try exact I.
Qed.

Lemma SFsigned_nonneg (x : spec_float) : SFsigned false x -> SFnonneg x.
Proof. destruct x; cbn; auto. Qed.

(** The sum of two values that are not negative is not negative. *)
Lemma SFadd_nonneg (x y : spec_float) :
  SFnonneg x -> SFnonneg y -> SFnonneg (SF64add x y).
Proof.
  destruct x as [sx|sx| |sx mx ex]; destruct y as [sy|sy| |sy my ey]; cbn;
    intros Hx Hy; subst; try contradiction; try reflexivity; try exact I.
  - destruct sx, sy; exact I.
  - apply SFsigned_nonneg, binary_normalize_nonneg. cbn. lia.
Qed.

Lemma digits2_pos_bounds (p : positive) :
  2 ^ (Z.pos (digits2_pos p) - 1) <= Z.pos p < 2 ^ Z.pos (digits2_pos p).
Proof.
  induction p as [p IH|p IH|]; cbn [digits2_pos].
  - rewrite Pos2Z.inj_succ.
    replace (Z.succ (Z.pos (digits2_pos p)) - 1) with (Z.succ (Z.pos (digits2_pos p) - 1)) by lia.
    rewrite !Z.pow_succ_r by lia. lia.
  - rewrite Pos2Z.inj_succ.
    replace (Z.succ (Z.pos (digits2_pos p)) - 1) with (Z.succ (Z.pos (digits2_pos p) - 1)) by lia.
    rewrite !Z.pow_succ_r by lia. lia.
  - cbn. lia.
Qed.

Lemma shl_align_value (m : positive) (e ez : Z) :
  ez <= e -> Z.pos (fst (shl_align m e ez)) = Z.pos m * 2 ^ (e - ez).
Proof.
  intros H. unfold shl_align. destruct (ez - e) as [|d|d] eqn:E; cbn [fst].
  - replace (e - ez) with 0 by lia. cbn. lia.
  - lia.
  - replace (e - ez) with (Z.pos d) by lia.
    change (Pos.iter xO m d) with (shift_pos d m).
    rewrite shift_pos_correct. rewrite Z.pow_pos_fold. lia.
Qed.

(** Of two valid numbers, the one with the smaller exponent has the
    smaller magnitude. *)
Lemma smaller_exponent_smaller (m1 m2 : positive) (e1 e2 : Z) :
  bounded prec emax m1 e1 = true -> bounded prec emax m2 e2 = true ->
  e1 < e2 -> Z.pos m1 < Z.pos m2 * 2 ^ (e2 - e1).
Proof.
  unfold bounded, canonical_mantissa, fexp, SpecFloat.emin.
  intros H1 H2 He.
  apply andb_true_iff in H1, H2. destruct H1 as [H1 _], H2 as [H2 _].
  apply Z.eqb_eq in H1, H2.
  pose proof (digits2_pos_bounds m1) as [_ B1].
  pose proof (digits2_pos_bounds m2) as [B2 _].
  change prec with 53 in *. change emax with 1024 in *.
  assert (D1 : Z.pos (digits2_pos m1) <= 53) by lia.
  assert (D2 : Z.pos (digits2_pos m2) = 53) by lia.
  rewrite D2 in B2.
  assert (P1 : 2 ^ Z.pos (digits2_pos m1) <= 2 ^ 53) by (apply Z.pow_le_mono_r; lia).
  assert (P2 : 2 ^ 1 <= 2 ^ (e2 - e1)) by (apply Z.pow_le_mono_r; lia).
  change (2 ^ 1) with 2 in P2. change (2 ^ (53 - 1)) with 4503599627370496 in B2.
  change (2 ^ 53) with 9007199254740992 in P1.
  nia.
Qed.

(** When [x] is at most [y], the difference [y - x] is NaN or not
    negative. *)
Lemma SFsub_nonneg (x y : spec_float) :
  valid_binary x = true -> valid_binary y = true ->
  SFleb x y = true ->
  SF64sub y x = S754_nan \/ SFnonneg (SF64sub y x).
Proof.
  intros Vx Vy Hle.
  destruct x as [sx|sx| |sx mx ex]; destruct y as [sy|sy| |sy my ey];
    try discriminate Hle;
    try (destruct sx, sy; cbn in Hle |- *; try discriminate Hle; auto; fail).
  cbn [valid_binary] in Vx, Vy. right.
  unfold SF64sub, SFsub. apply SFsigned_nonneg, binary_normalize_nonneg.
  assert (Hx := shl_align_value mx ex (Z.min ey ex) ltac:(lia)).
  assert (Hy := shl_align_value my ey (Z.min ey ex) ltac:(lia)).
  unfold SFleb, SFcompare in Hle.
  destruct sx, sy; cbn [cond_Zopp]; try discriminate Hle; try lia.
  - (* both negative: x <= y means |y| <= |x| *)
    rewrite Hx, Hy. destruct (Z.compare_spec ex ey) as [E|E|E]; try discriminate Hle.
    + subst ey. rewrite Z.min_id, Z.sub_diag. change (2 ^ 0)%Z with 1%Z.
      destruct (Pos.compare_cont Eq mx my) eqn:C; try discriminate Hle.
      * apply Pos.compare_eq in C. subst. lia.
      * change (Pos.compare_cont Eq mx my) with (Pos.compare mx my) in C.
        apply Pos.compare_gt_iff in C. lia.
    + pose proof (smaller_exponent_smaller my mx ey ex Vy Vx E) as B.
      replace (Z.min ey ex) with ey by lia. rewrite Z.sub_diag.
      change (2 ^ 0) with 1. lia.
  - (* both positive *)
    rewrite Hx, Hy. destruct (Z.compare_spec ex ey) as [E|E|E]; try discriminate Hle.
    + subst ey. rewrite Z.min_id, Z.sub_diag. change (2 ^ 0)%Z with 1%Z.
      destruct (Pos.compare_cont Eq mx my) eqn:C; try discriminate Hle.
      * apply Pos.compare_eq in C. subst. lia.
      * change (Pos.compare_cont Eq mx my) with (Pos.compare mx my) in C.
        apply Pos.compare_lt_iff in C. change (Z.pos mx < Z.pos my)%Z in C.
        lia.
    + pose proof (smaller_exponent_smaller mx my ex ey Vx Vy E) as B.
      replace (Z.min ey ex) with ex by lia. rewrite Z.sub_diag.
      change (2 ^ 0) with 1. lia.
Qed.

(** [x < y] excludes [y <= x]. *)
Lemma SFltb_not_leb (x y : spec_float) : SFltb x y = true -> SFleb y x = false.
Proof.
  unfold SFltb, SFleb.
  destruct x as [sx|sx| |sx mx ex]; destruct y as [sy|sy| |sy my ey]; cbn;
    try (destruct sx); try (destruct sy); try discriminate; try reflexivity;
    change (Pos.compare_cont Eq mx my) with (Pos.compare mx my);
    change (Pos.compare_cont Eq my mx) with (Pos.compare my mx);
    rewrite (Z.compare_antisym ex ey), (Pos.compare_antisym mx my);
    destruct (ex ?= ey)%Z, (mx ?= my)%positive; cbn; try discriminate; reflexivity.
Qed.

End SpecFacts.

(** The facts, for the numbers of the program. *)

Lemma is_nan_spec (x : float) : is_nan x = true <-> Prim2SF x = S754_nan.
Proof.
  unfold is_nan. rewrite eqb_spec. unfold SFeqb. split.
  - destruct (Prim2SF x) as [s|s| |s m e]; cbn; try (destruct s); try discriminate;
      try reflexivity.
    + rewrite Z.compare_refl, Pos.compare_cont_refl. discriminate.
    + rewrite Z.compare_refl, Pos.compare_cont_refl. discriminate.
  - intros ->. reflexivity.
Qed.

Lemma leb_zero_nonneg (x : float) : (0 <=? x)%float = true <-> SFnonneg (Prim2SF x).
Proof.
  rewrite leb_spec. change (Prim2SF 0) with (S754_zero false).
  now rewrite SFnonneg_leb.
Qed.

(** The sum of two numbers that are not negative is not negative. *)
Lemma float_add_nonneg (x y : float) :
  (0 <=? x)%float = true -> (0 <=? y)%float = true -> (0 <=? x + y)%float = true.
Proof.
  rewrite !leb_zero_nonneg, add_spec. apply SFadd_nonneg.
Qed.

(** When [x <= y], the difference [y - x] is NaN or not negative. *)
Lemma float_sub_nonneg (x y : float) :
  (x <=? y)%float = true ->
  is_nan (y - x)%float = true \/ (0 <=? y - x)%float = true.
Proof.
  rewrite leb_spec, is_nan_spec, leb_zero_nonneg, sub_spec. intros H.
  apply SFsub_nonneg; [apply Prim2SF_valid|apply Prim2SF_valid|exact H].
Qed.

(** [x < y] excludes [y <= x]. *)
Lemma float_ltb_not_leb (x y : float) :
  (x <? y)%float = true -> (y <=? x)%float = false.
Proof. rewrite ltb_spec, leb_spec. apply SFltb_not_leb. Qed.

(** Two numbers that compare are not NaN. *)
Lemma float_leb_not_nan (x y : float) :
  (x <=? y)%float = true -> is_nan x = false /\ is_nan y = false.
Proof.
  rewrite leb_spec. intros H.
  split; apply not_true_iff_false; rewrite is_nan_spec; intros E; rewrite E in H;
    [|destruct (Prim2SF x)]; discriminate.
Qed.

(** The opposite of a number that is not NaN is not NaN. *)
Lemma float_opp_not_nan (x : float) : is_nan x = false -> is_nan (- x)%float = false.
Proof.
  intros H. apply not_true_iff_false. apply not_true_iff_false in H.
  rewrite is_nan_spec in *. rewrite opp_spec. intros E. apply H.
  destruct (Prim2SF x); cbn in E; try discriminate; reflexivity.
Qed.

(** ** The round trip through a REAL column *)

Lemma eqb_zero_spec (x : float) :
  (x =? 0)%float = true <-> exists s, Prim2SF x = S754_zero s.
Proof.
  rewrite eqb_spec. change (Prim2SF 0) with (S754_zero false). split.
  - destruct (Prim2SF x) as [s|s| |s m e]; cbn; try (destruct s); try discriminate;
      intros _; eauto.
  - intros [s ->]. reflexivity.
Qed.

Lemma stored_real_zero (x : float) : (x =? 0)%float = true -> stored_real x = 0%float.
Proof. unfold stored_real. now intros ->. Qed.

Lemma stored_real_nonzero (x : float) : (x =? 0)%float = false -> stored_real x = x.
Proof. unfold stored_real. now intros ->. Qed.

(** Writing what was read changes nothing. *)
Lemma stored_real_idem (x : float) : stored_real (stored_real x) = stored_real x.
Proof.
  destruct (x =? 0)%float eqn:E.
  - now rewrite (stored_real_zero x E).
  - now rewrite !(stored_real_nonzero x E).
Qed.

(** Two numbers stored alike are the same number, or both are zeros. *)
Lemma stored_real_alike (x y : float) :
  stored_real x = stored_real y ->
  x = y \/ (x =? 0)%float = true /\ (y =? 0)%float = true.
Proof.
  unfold stored_real. destruct (x =? 0)%float eqn:Ex, (y =? 0)%float eqn:Ey; intros H.
  - now right.
  - subst y. discriminate Ey.
  - subst x. discriminate Ex.
  - now left.
Qed.

Lemma stored_real_zeros (x y : float) :
  (x =? 0)%float = true -> (y =? 0)%float = true -> stored_real x = stored_real y.
Proof. intros Hx Hy. now rewrite (stored_real_zero x Hx), (stored_real_zero y Hy). Qed.

(** The comparisons and [is_nan] do not see the round trip. *)
Lemma leb_stored_real_r (a x : float) : (a <=? stored_real x)%float = (a <=? x)%float.
Proof.
  unfold stored_real. destruct (x =? 0)%float eqn:E; [|reflexivity].
  apply eqb_zero_spec in E. destruct E as [s E].
  rewrite !leb_spec, E. change (Prim2SF 0) with (S754_zero false).
  destruct (Prim2SF a) as [sa|sa| |sa ma ea]; reflexivity.
Qed.

Lemma is_nan_stored_real (x : float) : is_nan (stored_real x) = is_nan x.
Proof.
  unfold stored_real. destruct (x =? 0)%float eqn:E; [|reflexivity].
  apply eqb_zero_spec in E. destruct E as [s E].
  symmetry. apply not_true_iff_false. rewrite is_nan_spec, E. discriminate.
Qed.

(** Numbers stored alike compare alike, and their sums and differences
    with a third number are stored alike. *)
Lemma leb_alike (a x y : float) :
  stored_real x = stored_real y -> (a <=? x)%float = (a <=? y)%float.
Proof.
  intros H. now rewrite <- (leb_stored_real_r a x), <- (leb_stored_real_r a y), H.
Qed.

Lemma SFadd_zero_any (s s' : bool) (a : spec_float) :
  SF64add (S754_zero s) a = SF64add (S754_zero s') a \/
  exists t t', SF64add (S754_zero s) a = S754_zero t /\
               SF64add (S754_zero s') a = S754_zero t'.
Proof.
  destruct a as [sa|sa| |sa ma ea]; try (left; reflexivity).
  right. destruct s, s', sa; cbn; eauto.
Qed.

Lemma SFsub_zero_any (s s' : bool) (a : spec_float) :
  SF64sub (S754_zero s) a = SF64sub (S754_zero s') a \/
  exists t t', SF64sub (S754_zero s) a = S754_zero t /\
               SF64sub (S754_zero s') a = S754_zero t'.
Proof.
  destruct a as [sa|sa| |sa ma ea]; try (left; reflexivity).
  right. destruct s, s', sa; cbn; eauto.
Qed.

Lemma add_alike (x y a : float) :
  stored_real x = stored_real y ->
  stored_real (x + a) = stored_real (y + a).
Proof.
  intros H. apply stored_real_alike in H. destruct H as [->|[Hx Hy]]; [reflexivity|].
  apply eqb_zero_spec in Hx, Hy. destruct Hx as [s Hx], Hy as [s' Hy].
  destruct (SFadd_zero_any s s' (Prim2SF a)) as [E|[t [t' [E E']]]].
  - f_equal. apply Prim2SF_inj. now rewrite !add_spec, Hx, Hy.
  - apply stored_real_zeros; apply eqb_zero_spec; rewrite add_spec.
    + rewrite Hx. eauto.
    + rewrite Hy. eauto.
Qed.

Lemma sub_alike (x y a : float) :
  stored_real x = stored_real y ->
  stored_real (x - a) = stored_real (y - a).
Proof.
  intros H. apply stored_real_alike in H. destruct H as [->|[Hx Hy]]; [reflexivity|].
  apply eqb_zero_spec in Hx, Hy. destruct Hx as [s Hx], Hy as [s' Hy].
  destruct (SFsub_zero_any s s' (Prim2SF a)) as [E|[t [t' [E E']]]].
  - f_equal. apply Prim2SF_inj. now rewrite !sub_spec, Hx, Hy.
  - apply stored_real_zeros; apply eqb_zero_spec; rewrite sub_spec.
    + rewrite Hx. eauto.
    + rewrite Hy. eauto.
Qed.

Lemma is_nan_alike (x y : float) :
  stored_real x = stored_real y -> is_nan x = is_nan y.
Proof.
  intros H. now rewrite <- (is_nan_stored_real x), <- (is_nan_stored_real y), H.
Qed.

(** ** Further facts on the comparisons and on NaN *)

(** A number that is neither NaN nor below zero is at least zero. *)
Lemma float_not_neg (x : float) :
  is_nan x = false -> (x <? 0)%float = false -> (0 <=? x)%float = true.
Proof.
  intros Hn. apply not_true_iff_false in Hn. rewrite is_nan_spec in Hn.
  rewrite ltb_spec, leb_spec. change (Prim2SF 0) with (S754_zero false).
  destruct (Prim2SF x) as [s|s| |s m e]; try (destruct s); cbn; congruence.
Qed.

(** A sum with a NaN is NaN. *)
Lemma is_nan_add_r (x y : float) : is_nan y = true -> is_nan (x + y)%float = true.
Proof.
  rewrite !is_nan_spec, add_spec. intros ->. now destruct (Prim2SF x).
Qed.

Lemma is_infinity_spec (x : float) :
  is_infinity x = true <-> exists s, Prim2SF x = S754_infinity s.
Proof.
  unfold is_infinity. rewrite eqb_spec, abs_spec.
  change (Prim2SF infinity) with (S754_infinity false). split.
  - destruct (Prim2SF x) as [s|s| |s m e]; cbn; try discriminate; eauto.
  - intros [s ->]. reflexivity.
Qed.

(** The amount of a movement and its opposite, as stored, add up to zero,
    unless the amount is infinite. *)
Lemma stored_opposites_cancel (a : float) :
  is_nan a = false -> is_infinity a = false ->
  (stored_real (- a) + stored_real a)%float = 0%float.
Proof.
  intros Hn Hi.
  apply not_true_iff_false in Hn. rewrite is_nan_spec in Hn.
  apply not_true_iff_false in Hi. rewrite is_infinity_spec in Hi.
  destruct (Prim2SF a) as [s|s| |s m e] eqn:E.
  - assert (Ha : (a =? 0)%float = true) by (apply eqb_zero_spec; eauto).
    assert (Ho : (- a =? 0)%float = true)
      by (apply eqb_zero_spec; rewrite opp_spec, E; cbn; eauto).
    now rewrite (stored_real_zero _ Ha), (stored_real_zero _ Ho).
  - exfalso. apply Hi. eauto.
  - contradiction.
  - assert (Ha : (a =? 0)%float = false).
    { apply not_true_iff_false. rewrite eqb_zero_spec, E. intros [z Hz]. discriminate. }
    assert (Ho : (- a =? 0)%float = false).
    { apply not_true_iff_false. rewrite eqb_zero_spec, opp_spec, E.
      intros [z Hz]. discriminate. }
    rewrite (stored_real_nonzero _ Ha), (stored_real_nonzero _ Ho).
    apply Prim2SF_inj. rewrite add_spec, opp_spec, E.
    change (Prim2SF 0) with (S754_zero false).
    unfold SF64add, SFopp, SFadd, shl_align.
    rewrite Z.min_id, Z.sub_diag. cbn [fst].
    replace (cond_Zopp (negb s) (Z.pos m) + cond_Zopp s (Z.pos m))%Z with 0%Z
      by (destruct s; cbn [negb cond_Zopp]; lia).
    reflexivity.
Qed.

(** ** Sums and differences that are not -0.0 *)

Section NoNegativeZero.

Lemma shr_1_halves (j : Z) (mrs : shr_record) :
  0 <= j -> 2 ^ (j + 1) <= shr_m mrs -> 2 ^ j <= shr_m (shr_1 mrs).
Proof.
  intros Hj. rewrite Z.pow_add_r by lia. change (2 ^ 1) with 2.
  pose proof (Z.pow_pos_nonneg 2 j ltac:(lia) Hj) as Hp.
  destruct mrs as [m r s]. cbn [shr_m shr_1].
  destruct m as [|[p|p|]|p]; cbn [shr_m]; lia.
Qed.

Lemma iter_shr_1_halves (n : positive) :
  forall (j : Z) (mrs : shr_record),
  0 <= j -> 2 ^ (j + Z.pos n) <= shr_m mrs -> 2 ^ j <= shr_m (iter_pos shr_1 n mrs).
Proof.
  induction n as [n IH|n IH|]; intros j mrs Hj H; cbn [iter_pos].
  - apply IH; [exact Hj|]. apply IH; [lia|]. apply shr_1_halves; [lia|].
    replace (j + Z.pos n + Z.pos n + 1) with (j + Z.pos n~1) by lia. exact H.
  - apply IH; [exact Hj|]. apply IH; [lia|].
    replace (j + Z.pos n + Z.pos n) with (j + Z.pos n~0) by lia. exact H.
  - now apply shr_1_halves.
Qed.

(** Shifting a mantissa to its place never loses all of it. *)
Lemma shr_fexp_positive (p : positive) (e : Z) (l : location) :
  SpecFloat.emin prec emax <= e ->
  0 < shr_m (fst (shr_fexp prec emax (Z.pos p) e l)) /\
  SpecFloat.emin prec emax <= snd (shr_fexp prec emax (Z.pos p) e l).
Proof.
  unfold SpecFloat.emin, shr_fexp, shr, fexp, SpecFloat.emin. cbn [Zdigits2].
  change prec with 53. change emax with 1024. intros He.
  assert (H0 : shr_m (shr_record_of_loc (Z.pos p) l) = Z.pos p) by (destruct l as [|[]]; reflexivity).
  destruct (Z.max (Z.pos (digits2_pos p) + e - 53) (3 - 1024 - 53) - e) as [|n|n] eqn:E;
    cbn [fst snd]; try (rewrite H0; split; lia).
  split; [|lia].
  assert (Hn : Z.pos n = Z.pos (digits2_pos p) - 53) by lia.
  pose proof (digits2_pos_bounds p) as [B _].
  assert (H1 : 2 ^ 0 <= shr_m (iter_pos shr_1 n (shr_record_of_loc (Z.pos p) l))).
  { apply iter_shr_1_halves; [lia|]. rewrite H0.
    apply Z.le_trans with (2 := B). apply Z.pow_le_mono_r; lia. }
  change (2 ^ 0) with 1 in H1. lia.
Qed.

Lemma round_nearest_even_grows (m : Z) (l : location) :
  0 < m -> 0 < round_nearest_even m l.
Proof.
  intros H. destruct l as [|[]]; cbn; try lia. destruct (Z.even m); lia.
Qed.

Lemma binary_round_aux_not_zero (s s' : bool) (p : positive) (e : Z) (l : location) :
  SpecFloat.emin prec emax <= e ->
  binary_round_aux prec emax s (Z.pos p) e l <> S754_zero s'.
Proof.
  intros He. unfold binary_round_aux.
  destruct (shr_fexp_positive p e l He) as [H1 H2].
  destruct (shr_fexp prec emax (Z.pos p) e l) as [mrs1 e1]. cbn [fst snd] in H1, H2.
  pose proof (round_nearest_even_grows _ (loc_of_shr_record mrs1) H1) as Hr.
  destruct (round_nearest_even (shr_m mrs1) (loc_of_shr_record mrs1)) as [|q|q];
    try lia.
  destruct (shr_fexp_positive q e1 loc_Exact H2) as [H3 _].
  destruct (shr_fexp prec emax (Z.pos q) e1 loc_Exact) as [mrs2 e2]. cbn [fst] in H3.
  destruct (shr_m mrs2) as [|q2|q2]; try lia.
  destruct (e2 <=? emax - prec); discriminate.
Qed.

Lemma binary_round_not_zero (s s' : bool) (p : positive) (e : Z) :
  SpecFloat.emin prec emax <= e ->
  binary_round prec emax s p e <> S754_zero s'.
Proof.
  intros He. unfold binary_round.
  destruct (shl_align p e (fexp prec emax (Z.pos (digits2_pos p) + e))) as [mz ez] eqn:E.
  apply binary_round_aux_not_zero.
  unfold shl_align in E.
  destruct (fexp prec emax (Z.pos (digits2_pos p) + e) - e) eqn:D;
    injection E as _ <-; try exact He.
  unfold fexp. apply Z.le_max_r.
Qed.

Lemma binary_normalize_not_neg_zero (m e : Z) :
  SpecFloat.emin prec emax <= e ->
  binary_normalize prec emax m e false <> S754_zero true.
Proof.
  intros He. destruct m as [|p|p]; cbn [binary_normalize].
  - discriminate.
  - now apply binary_round_not_zero.
  - now apply binary_round_not_zero.
Qed.

Lemma bounded_emin (m : positive) (e : Z) :
  bounded prec emax m e = true -> SpecFloat.emin prec emax <= e.
Proof.
  unfold bounded, canonical_mantissa. intros H.
  apply andb_true_iff in H. destruct H as [H _]. apply Z.eqb_eq in H.
  rewrite <- H. unfold fexp. apply Z.le_max_r.
Qed.

(** A sum is -0.0 only if its first term is. *)
Lemma SFadd_not_neg_zero (x y : spec_float) :
  valid_binary x = true -> valid_binary y = true ->
  x <> S754_zero true -> SF64add x y <> S754_zero true.
Proof.
  intros Vx Vy Hx.
  destruct x as [sx|sx| |sx mx ex]; destruct y as [sy|sy| |sy my ey];
    try (destruct sx; destruct sy; cbn; try discriminate; congruence);
    try (destruct sx; cbn; try discriminate; congruence);
    try (destruct sy; cbn; try discriminate; congruence);
    try (cbn; discriminate).
  apply binary_normalize_not_neg_zero.
  apply Z.min_glb; [exact (bounded_emin _ _ Vx)|exact (bounded_emin _ _ Vy)].
Qed.

(** A difference is -0.0 only if its first term is. *)
Lemma SFsub_not_neg_zero (x y : spec_float) :
  valid_binary x = true -> valid_binary y = true ->
  x <> S754_zero true -> SF64sub x y <> S754_zero true.
Proof.
  intros Vx Vy Hx.
  destruct x as [sx|sx| |sx mx ex]; destruct y as [sy|sy| |sy my ey];
    try (destruct sx; destruct sy; cbn; try discriminate; congruence);
    try (destruct sx; cbn; try discriminate; congruence);
    try (destruct sy; cbn; try discriminate; congruence);
    try (cbn; discriminate).
  apply binary_normalize_not_neg_zero.
  apply Z.min_glb; [exact (bounded_emin _ _ Vx)|exact (bounded_emin _ _ Vy)].
Qed.

End NoNegativeZero.

(** A REAL column gives back [x] itself exactly when [x] is not -0.0. *)
Lemma stored_real_keeps (x : float) :
  stored_real x = x <-> Prim2SF x <> S754_zero true.
Proof.
  split.
  - intros H E. assert (Hz : (x =? 0)%float = true) by (apply eqb_zero_spec; eauto).
    rewrite (stored_real_zero x Hz) in H. rewrite <- H in E. discriminate E.
  - intros H. destruct (x =? 0)%float eqn:E; [|now apply stored_real_nonzero].
    rewrite (stored_real_zero x E). apply eqb_zero_spec in E. destruct E as [[|] E].
    + contradiction.
    + symmetry. apply Prim2SF_inj. now rewrite E.
Qed.

(** Adding to or subtracting from a number that is not -0.0 does not give
    -0.0. *)
Lemma stored_real_add (x a : float) :
  stored_real x = x -> stored_real (x + a) = (x + a)%float.
Proof.
  rewrite !stored_real_keeps, add_spec.
  apply SFadd_not_neg_zero; apply Prim2SF_valid.
Qed.

Lemma stored_real_sub (x a : float) :
  stored_real x = x -> stored_real (x - a) = (x - a)%float.
Proof.
  rewrite !stored_real_keeps, sub_spec.
  apply SFsub_not_neg_zero; apply Prim2SF_valid.
Qed.

(** ** Lookups after the storage primitives *)

Section StorageFacts.

Variable db : Db.

Lemma select_client_id (k : Z) (r : client_row) :
  select_client db k = Some r -> row_id r = k.
Proof.
  unfold select_client. intros H.
  apply find_some in H. destruct H as [_ H].
  now apply Z.eqb_eq in H.
Qed.

Lemma select_client_In (k : Z) (r : client_row) :
  select_client db k = Some r -> In r (clients db).
Proof.
  unfold select_client. intros H. now apply find_some in H.
Qed.

Lemma select_client_None (k : Z) :
  select_client db k = None <-> ~ In k (map row_id (clients db)).
Proof.
  unfold select_client. split.
  - intros H Hin. apply in_map_iff in Hin. destruct Hin as [r [Hr Hin]].
    apply (find_none _ _ H) in Hin. cbn in Hin.
    rewrite Hr, Z.eqb_refl in Hin. discriminate.
  - intros H. destruct (find _ _) as [r|] eqn:E; [|reflexivity].
    exfalso. apply H. apply find_some in E. destruct E as [Hin E].
    apply Z.eqb_eq in E. subst k. now apply in_map.
Qed.

Lemma select_update_balance (b : float) (cid k : Z) :
  select_client (update_balance db b cid) k =
  if k =? cid
  then option_map
         (fun r => mk_client_row (row_id r) (row_first_name r) (stored_real b)
                     (row_occupation r))
         (select_client db k)
  else select_client db k.
Proof.
  unfold select_client, update_balance. cbn [clients].
  induction (clients db) as [|r rs IH]; cbn [map find].
  - now destruct (k =? cid).
  - destruct (row_id r =? cid) eqn:Ec; cbn [row_id].
    + destruct (row_id r =? k) eqn:Ek.
      * apply Z.eqb_eq in Ec, Ek.
        replace (k =? cid) with true by (symmetry; apply Z.eqb_eq; lia).
        reflexivity.
      * exact IH.
    + destruct (row_id r =? k) eqn:Ek.
      * apply Z.eqb_eq in Ek. apply Z.eqb_neq in Ec.
        replace (k =? cid) with false by (symmetry; apply Z.eqb_neq; lia).
        reflexivity.
      * exact IH.
Qed.

Lemma select_update_other (b : float) (cid k : Z) :
  k <> cid -> select_client (update_balance db b cid) k = select_client db k.
Proof.
  intros Hk. rewrite select_update_balance.
  now replace (k =? cid) with false by (symmetry; apply Z.eqb_neq; exact Hk).
Qed.

Lemma select_update_None (b : float) (cid k : Z) :
  select_client (update_balance db b cid) k = None <-> select_client db k = None.
Proof.
  rewrite select_update_balance. destruct (k =? cid); [|reflexivity].
  destruct (select_client db k); cbn; split; congruence.
Qed.

Lemma has_row_update_balance (b : float) (cid k : Z) :
  has_row (update_balance db b cid) k = has_row db k.
Proof.
  unfold has_row. pose proof (select_update_None b cid k) as H.
  destruct (select_client (update_balance db b cid) k), (select_client db k);
    try reflexivity; destruct H as [H1 H2];
    [specialize (H2 eq_refl)|specialize (H1 eq_refl)]; discriminate.
Qed.

Lemma persisted_update_balance (b : float) (cid k : Z) :
  persisted_balance (update_balance db b cid) k =
  if k =? cid
  then option_map (fun _ => stored_real b) (persisted_balance db k)
  else persisted_balance db k.
Proof.
  unfold persisted_balance. rewrite select_update_balance.
  destruct (k =? cid); [|reflexivity].
  now destruct (select_client db k).
Qed.

Lemma persisted_insert_movement (cid : Z) (action : string) (amount : float) (k : Z) :
  persisted_balance (insert_movement db cid action amount) k = persisted_balance db k.
Proof. reflexivity. Qed.

Lemma find_client_in_range (k : Z) (x : option Client.t) :
  find_client db k = Ok x -> in_int64 k = true.
Proof.
  unfold find_client, bind_int. now destruct (in_int64 k).
Qed.

Lemma find_client_out_of_range (k : Z) :
  in_int64 k = false -> find_client db k = Raise OverflowError.
Proof.
  unfold find_client, bind_int. now intros ->.
Qed.

Lemma find_client_row (k : Z) :
  in_int64 k = true ->
  find_client db k =
  Ok (option_map
        (fun r => Client.init (row_id r) (row_first_name r) (row_balance r) (row_occupation r))
        (select_client db k)).
Proof.
  unfold find_client, bind_int. intros ->. cbn. now destruct (select_client db k).
Qed.

Lemma find_client_Some (k : Z) (c : Client.t) :
  find_client db k = Ok (Some c) ->
  exists r, select_client db k = Some r /\
            c = Client.init (row_id r) (row_first_name r) (row_balance r) (row_occupation r).
Proof.
  intros H. pose proof (find_client_in_range _ _ H) as Hk.
  rewrite (find_client_row k Hk) in H.
  destruct (select_client db k) as [r|]; [|discriminate].
  cbn in H. injection H as <-. now exists r.
Qed.

Lemma find_client_id (k : Z) (c : Client.t) :
  find_client db k = Ok (Some c) -> Client.id c = k.
Proof.
  intros H. destruct (find_client_Some _ _ H) as [r [Hr ->]]. cbn.
  now apply select_client_id.
Qed.

Lemma find_client_balance (k : Z) (c : Client.t) :
  find_client db k = Ok (Some c) -> persisted_balance db k = Some (Client.balance c).
Proof.
  intros H. destruct (find_client_Some _ _ H) as [r [Hr ->]].
  unfold persisted_balance. now rewrite Hr.
Qed.

Lemma find_client_movements (k : Z) (c : Client.t) :
  find_client db k = Ok (Some c) -> Client.movements c = [].
Proof.
  intros H. now destruct (find_client_Some _ _ H) as [r [Hr ->]].
Qed.

Lemma find_client_has_row (k : Z) (c : Client.t) :
  find_client db k = Ok (Some c) -> has_row db k = true.
Proof.
  intros H. destruct (find_client_Some _ _ H) as [r [Hr _]].
  unfold has_row. now rewrite Hr.
Qed.

Lemma find_client_None (k : Z) :
  find_client db k = Ok None <-> in_int64 k = true /\ select_client db k = None.
Proof.
  split.
  - intros H. pose proof (find_client_in_range _ _ H) as Hk.
    rewrite (find_client_row k Hk) in H. split; [exact Hk|].
    destruct (select_client db k); [discriminate|reflexivity].
  - intros [Hk Hs]. now rewrite (find_client_row k Hk), Hs.
Qed.

Lemma has_row_select (k : Z) : has_row db k = true <-> select_client db k <> None.
Proof.
  unfold has_row. destruct (select_client db k); split; congruence.
Qed.

End StorageFacts.

Lemma movements_of_insert_other (db : Db) (k cid : Z) (action : string) (amount : float) :
  k <> cid ->
  movements_of (insert_movement db k action amount) cid = movements_of db cid.
Proof.
  intros Hk. unfold movements_of, insert_movement. cbn [movements].
  rewrite filter_app. cbn [filter mov_client_id].
  replace (k =? cid) with false by (symmetry; apply Z.eqb_neq; exact Hk).
  apply app_nil_r.
Qed.

Lemma movements_of_insert_same (db : Db) (k : Z) (action : string) (amount : float) :
  movements_of (insert_movement db k action amount) k =
  movements_of db k ++ [mk_movement_row (movements_seq db + 1) k action (stored_real amount)].
Proof.
  unfold movements_of, insert_movement. cbn [movements].
  rewrite filter_app. cbn [filter mov_client_id]. now rewrite Z.eqb_refl.
Qed.

Lemma select_delete_client (db : Db) (k cid : Z) :
  select_client (delete_client db k) cid =
  if cid =? k then None else select_client db cid.
Proof.
  unfold select_client, delete_client. cbn [clients].
  induction (clients db) as [|r rs IH]; cbn [filter find].
  - now destruct (cid =? k).
  - destruct (row_id r =? k) eqn:Ek; cbn [negb find].
    + destruct (row_id r =? cid) eqn:Ec; [|exact IH].
      apply Z.eqb_eq in Ek, Ec.
      replace (cid =? k) with true by (symmetry; apply Z.eqb_eq; lia).
      rewrite IH.
      replace (cid =? k) with true by (symmetry; apply Z.eqb_eq; lia).
      reflexivity.
    + destruct (row_id r =? cid) eqn:Ec; [|exact IH].
      apply Z.eqb_neq in Ek. apply Z.eqb_eq in Ec.
      replace (cid =? k) with false by (symmetry; apply Z.eqb_neq; lia).
      reflexivity.
Qed.

Lemma movements_of_delete_movements (db : Db) (k cid : Z) :
  movements_of (delete_movements db k) cid =
  if cid =? k then [] else movements_of db cid.
Proof.
  unfold movements_of, delete_movements. cbn [movements].
  induction (movements db) as [|m ms IH]; cbn [filter].
  - now destruct (cid =? k).
  - destruct (mov_client_id m =? k) eqn:Ek; cbn [negb filter].
    + destruct (mov_client_id m =? cid) eqn:Ec; [|exact IH].
      apply Z.eqb_eq in Ek, Ec. rewrite IH.
      replace (cid =? k) with true by (symmetry; apply Z.eqb_eq; lia).
      reflexivity.
    + destruct (mov_client_id m =? cid) eqn:Ec; [|exact IH].
      apply Z.eqb_neq in Ek. apply Z.eqb_eq in Ec. rewrite IH.
      replace (cid =? k) with false by (symmetry; apply Z.eqb_neq; lia).
      reflexivity.
Qed.

(** ** What a call that returns has done *)

Lemma execute_update_balance_Ok (db db' : Db) (b : float) (k : Z) :
  execute_update_balance db b k = Ok db' ->
  db' = update_balance db b k /\ in_int64 k = true /\
  (is_nan b = false \/ has_row db k = false).
Proof.
  unfold execute_update_balance, bind_int.
  destruct (in_int64 k); [|discriminate]. cbn [bind].
  destruct (is_nan b) eqn:Eb; destruct (has_row db k) eqn:Er; cbn [andb];
    try discriminate; intros [= <-]; auto.
Qed.

Lemma execute_insert_movement_Ok (db db' : Db) (k : Z) (action : string) (amount : float) :
  execute_insert_movement db k action amount = Ok db' ->
  db' = insert_movement db k action amount /\ in_int64 k = true /\ is_nan amount = false.
Proof.
  unfold execute_insert_movement, bind_int.
  destruct (in_int64 k); [|discriminate]. cbn [bind].
  destruct (is_nan amount); [discriminate|]. intros [= <-]. auto.
Qed.

Lemma execute_update_balance_stores (db : Db) (b : float) (k : Z) :
  in_int64 k = true -> is_nan b = false \/ has_row db k = false ->
  execute_update_balance db b k = Ok (update_balance db b k).
Proof.
  unfold execute_update_balance, bind_int. intros -> H. cbn [bind].
  destruct H as [-> | ->]; [reflexivity|]. now rewrite andb_false_r.
Qed.

Lemma execute_insert_movement_stores (db : Db) (k : Z) (action : string) (amount : float) :
  in_int64 k = true -> is_nan amount = false ->
  execute_insert_movement db k action amount = Ok (insert_movement db k action amount).
Proof.
  unfold execute_insert_movement, bind_int. now intros -> ->.
Qed.

(** A call of the client menu that returns has had one of the effects of
    [effect], and has printed nothing exactly when it stored something. *)
Lemma client_step_effect (db db' : Db) (c c' : Client.t) (a : ClientActions)
    (out : list line) :
  client_step db c a = Ok (c', db', out) ->
  effect db c a c' db' /\
  ((c', db') = (c, db) /\ out <> [] \/ db' <> db /\ out = []).
Proof.
  destruct a as [x|x|t x| |]; cbn [client_step].
  - unfold client_withdraw. destruct (x <=? Client.balance c)%float eqn:G.
    + cbn [Client.set_balance Client.append_movement Client.id Client.balance].
      destruct (execute_update_balance db _ _) as [db1|e] eqn:E1; [|discriminate].
      cbn [bind].
      destruct (execute_insert_movement db1 _ _ _) as [db2|e] eqn:E2; [|discriminate].
      cbn [bind]. intros [= <- <- <-].
      apply execute_update_balance_Ok in E1. destruct E1 as [-> [Hk Hb]].
      apply execute_insert_movement_Ok in E2. destruct E2 as [-> _].
      split; [now apply effect_withdraw|]. right. split; [|reflexivity].
      intros E. apply (f_equal movements_seq) in E. cbn in E. lia.
    + intros [= <- <- <-]. split; [constructor|]. left. split; [reflexivity|discriminate].
  - unfold client_deposit.
    cbn [Client.set_balance Client.append_movement Client.id Client.balance].
    destruct (execute_update_balance db _ _) as [db1|e] eqn:E1; [|discriminate].
    cbn [bind].
    destruct (execute_insert_movement db1 _ _ _) as [db2|e] eqn:E2; [|discriminate].
    cbn [bind]. intros [= <- <- <-].
    apply execute_update_balance_Ok in E1. destruct E1 as [-> [Hk Hb]].
    apply execute_insert_movement_Ok in E2. destruct E2 as [-> _].
    split; [now apply effect_deposit|]. right. split; [|reflexivity].
      intros E. apply (f_equal movements_seq) in E. cbn in E. lia.
  - unfold client_transfer.
    destruct (find_client db t) as [[ct|]|e] eqn:Ef; cbn [bind]; try discriminate.
    + destruct (x <=? Client.balance c)%float eqn:G.
      * cbn [Client.set_balance Client.append_movement Client.id Client.balance].
        destruct (execute_update_balance db _ _) as [db1|e] eqn:E1; [|discriminate].
        cbn [bind].
        destruct (execute_update_balance db1 _ _) as [db2|e] eqn:E2; [|discriminate].
        cbn [bind].
        destruct (execute_insert_movement db2 _ _ _) as [db3|e] eqn:E3; [|discriminate].
        cbn [bind].
        destruct (execute_insert_movement db3 _ _ _) as [db4|e] eqn:E4; [|discriminate].
        cbn [bind]. intros [= <- <- <-].
        apply execute_update_balance_Ok in E1. destruct E1 as [-> [Hk Hb]].
        apply execute_update_balance_Ok in E2. destruct E2 as [-> [_ Hb2]].
        apply execute_insert_movement_Ok in E3. destruct E3 as [-> _].
        apply execute_insert_movement_Ok in E4. destruct E4 as [-> _].
        split.
        -- apply effect_transfer; auto.
           destruct Hb2 as [Hb2|Hb2]; [exact Hb2|].
           rewrite has_row_update_balance, (find_client_id _ _ _ Ef) in Hb2.
           rewrite (find_client_has_row _ _ _ Ef) in Hb2. discriminate.
        -- right. split; [|reflexivity].
           intros E. apply (f_equal movements_seq) in E. cbn in E. lia.
      * intros [= <- <- <-]. split; [constructor|]. left. split; [reflexivity|discriminate].
    + intros [= <- <- <-]. split; [constructor|]. left. split; [reflexivity|discriminate].
  - intros [= <- <- <-]. split; [constructor|]. left. split; [reflexivity|discriminate].
  - intros [= <- <- <-]. split; [constructor|]. left. split; [reflexivity|discriminate].
Qed.

(** A session never changes the identifier of its client object. *)
Lemma effect_id (db db' : Db) (c c' : Client.t) (a : ClientActions) :
  effect db c a c' db' -> Client.id c' = Client.id c.
Proof. intros H. destruct H; reflexivity. Qed.

Lemma client_step_id (db db' : Db) (c c' : Client.t) (a : ClientActions) (out : list line) :
  client_step db c a = Ok (c', db', out) -> Client.id c' = Client.id c.
Proof.
  intros H. apply client_step_effect in H. destruct H as [H _].
  exact (effect_id _ _ _ _ _ H).
Qed.

(** ** Invariants of a run *)

(** A property [Inv] of the database holds after a run of [main] when it
    holds before, every choice of the run is admissible, and the steps of
    the two loops keep it; [Sess] is what the steps of a session may assume
    of the client object.  A call that raises has committed nothing. *)
Section RunInvariant.

Variable Inv : Db -> Prop.
Variable Sess : Db -> Client.t -> Prop.
Variable ok_client : Z -> ClientActions -> bool.
Variable ok_bank : BankActions -> bool.

Hypothesis ok_session :
  forall k session,
  ok_bank (CLIENT_ACTIONS k session) = true -> forallb (ok_client k) session = true.

Hypothesis find_ok :
  forall db k c, Inv db -> find_client db k = Ok (Some c) -> Sess db c.

Hypothesis step_ok :
  forall db c a c' db',
  ok_client (Client.id c) a = true -> Inv db -> Sess db c ->
  effect db c a c' db' -> Inv db' /\ Sess db' c'.

Hypothesis create_ok :
  forall db first_name occupation,
  ok_bank (CREATE_ACCOUNT first_name occupation) = true ->
  Inv db -> Inv (create_account db first_name (Some occupation)).

Hypothesis close_ok :
  forall db client_id db',
  Inv db -> close_account db client_id = Ok db' -> Inv db'.

Lemma client_loop_invariant (session : list ClientActions) :
  forall (db : Db) (c : Client.t),
  forallb (ok_client (Client.id c)) session = true ->
  Inv db -> Sess db c ->
  Inv (snd (final (client_loop db c session))) /\
  Sess (snd (final (client_loop db c session))) (fst (final (client_loop db c session))).
Proof.
  induction session as [|a rest IH]; intros db c Hs Hdb Hc.
  - split; assumption.
  - cbn [forallb] in Hs. apply andb_true_iff in Hs. destruct Hs as [Ha Hrest].
    cbn [client_loop].
    destruct (client_step db c a) as [[[c1 db1] o1]|e] eqn:E; [|split; assumption].
    apply client_step_effect in E. destruct E as [E _].
    destruct (step_ok db c a c1 db1 Ha Hdb Hc E) as [Hdb1 Hc1].
    rewrite <- (effect_id _ _ _ _ _ E) in Hrest.
    exact (IH db1 c1 Hrest Hdb1 Hc1).
Qed.

Lemma bank_step_invariant (db : Db) (a : BankActions) (r : ended Db) :
  ok_bank a = true -> Inv db ->
  bank_step db a = Some r -> Inv (final r).
Proof.
  intros Ha Hdb. destruct a as [n o|k| | |k session|]; cbn [bank_step];
    intros H; try discriminate.
  - injection H as <-. now apply create_ok.
  - destruct (close_account db k) as [db'|e] eqn:E; injection H as <-; cbn [final].
    + exact (close_ok db k db' Hdb E).
    + exact Hdb.
  - now injection H as <-.
  - now injection H as <-.
  - destruct (find_client db k) as [[c|]|e] eqn:Ek; injection H as <-; cbn [final];
      try exact Hdb.
    pose proof (find_ok _ _ _ Hdb Ek) as Hc.
    apply ok_session in Ha. rewrite <- (find_client_id _ _ _ Ek) in Ha.
    exact (proj1 (client_loop_invariant session db c Ha Hdb Hc)).
Qed.

Lemma main_invariant (input : list BankActions) :
  forall db : Db,
  Inv db -> forallb ok_bank input = true -> Inv (final (main db input)).
Proof.
  induction input as [|a rest IH]; intros db Hdb Hin.
  - exact Hdb.
  - cbn [forallb] in Hin. apply andb_true_iff in Hin. destruct Hin as [Ha Hrest].
    cbn [main]. destruct (bank_step db a) as [r|] eqn:E; [|exact Hdb].
    pose proof (bank_step_invariant _ _ _ Ha Hdb E) as Hr.
    destruct (raised r); [exact Hr|]. cbn [final].
    exact (IH (final r) Hr Hrest).
Qed.

End RunInvariant.

Lemma forallb_const_true {A : Type} (l : list A) : forallb (fun _ => true) l = true.
Proof. induction l; [reflexivity|assumption]. Qed.

(** ** Withdrawal *)

(** A withdrawal of 1 from a balance of 1e16 passes the test
    [amount <= balance] and is carried out, but the balance written back,
    1e16 - 1 rounded to binary64, is 1e16 again: the balance has not
    decreased. *)
Lemma withdrawal_lost_in_rounding :
  find_client rich_db 1 = Ok (Some rich) /\
  (0 <? 1)%float = true /\
  (1 <=? Client.balance rich)%float = true /\
  exists client' db',
    client_withdraw rich_db rich 1 = Ok (client', db', []) /\
    Client.balance client' = Client.balance rich /\
    persisted_balance db' 1 = persisted_balance rich_db 1 /\
    movements db' = movements rich_db ++ [mk_movement_row 2 1 "Withdraw" (-1)].
Proof.
  split; [reflexivity|]. split; [reflexivity|]. split; [reflexivity|].
  eexists; eexists. split; [reflexivity|]. repeat split.
Qed.

(** C4 (as the code has it). A withdrawal whose amount exceeds the balance
    of the client object (or does not compare with it: NaN) prints
    "Insufficient funds." and changes neither the object nor the database.
    Otherwise, [amount <= balance]: the balance of the object and of its
    row becomes the binary64 difference [balance - amount] (which rounding
    may leave equal to the old balance), one entry is appended to the
    object's list and exactly one row [(client.id, 'Withdraw', -amount)] to
    the movements table (a REAL column holding 0.0 for -0.0), and nothing
    is printed; except that when the difference is NaN (inf - inf) the
    UPDATE of the row raises [IntegrityError], and when the identifier of
    the object is not one SQLite can hold the UPDATE raises
    [OverflowError], and nothing is stored. *)
Theorem withdraw_contract (db : Db) (client : Client.t) (amount : float) :
  ((Client.balance client <? amount)%float = true \/
   (amount <=? Client.balance client)%float = false ->
   client_withdraw db client amount = Ok (client, db, [Text "Insufficient funds."]))
  /\
  ((amount <=? Client.balance client)%float = true ->
   in_int64 (Client.id client) = true ->
   is_nan (Client.balance client - amount)%float = false \/
   has_row db (Client.id client) = false ->
   exists client' db',
     client_withdraw db client amount = Ok (client', db', []) /\
     Client.balance client' = (Client.balance client - amount)%float /\
     Client.movements client' =
       Client.movements client ++ [[Lit "Withdrawn: -"; Float amount]] /\
     movements db' =
       movements db ++
       [mk_movement_row (movements_seq db + 1) (Client.id client) "Withdraw"
          (stored_real (- amount))] /\
     forall k,
       persisted_balance db' k =
       if k =? Client.id client
       then option_map (fun _ => stored_real (Client.balance client - amount))
                       (persisted_balance db k)
       else persisted_balance db k)
  /\
  ((amount <=? Client.balance client)%float = true ->
   in_int64 (Client.id client) = true ->
   is_nan (Client.balance client - amount)%float = true ->
   has_row db (Client.id client) = true ->
   client_withdraw db client amount = Raise IntegrityError)
  /\
  ((amount <=? Client.balance client)%float = true ->
   in_int64 (Client.id client) = false ->
   client_withdraw db client amount = Raise OverflowError).
Proof.
  split; [|split; [|split]].
  - intros H. unfold client_withdraw.
    replace (amount <=? Client.balance client)%float with false; [reflexivity|].
    destruct H as [H|H]; [|now rewrite H].
    symmetry. now apply float_ltb_not_leb.
  - intros G Hk Hb. unfold client_withdraw. rewrite G.
    cbn [Client.set_balance Client.append_movement Client.id Client.balance].
    rewrite execute_update_balance_stores by auto. cbn [bind].
    rewrite execute_insert_movement_stores;
      [|exact Hk|apply float_opp_not_nan; exact (proj1 (float_leb_not_nan _ _ G))].
    cbn [bind]. eexists; eexists. split; [reflexivity|].
    repeat split.
    intros k. rewrite persisted_insert_movement, persisted_update_balance.
    reflexivity.
  - intros G Hk Hb Hr. unfold client_withdraw, execute_update_balance, bind_int. rewrite G.
    cbn [Client.set_balance Client.append_movement Client.id Client.balance].
    now rewrite Hk, Hb, Hr.
  - intros G Hk. unfold client_withdraw, execute_update_balance, bind_int. rewrite G.
    cbn [Client.set_balance Client.append_movement Client.id Client.balance].
    now rewrite Hk.
Qed.

Lemma withdraw_contract_witness :
  client_withdraw alice_db alice 1000 = Ok (alice, alice_db, [Text "Insufficient funds."])
  /\
  (exists client' db',
     client_withdraw alice_db alice 30 = Ok (client', db', []) /\
     Client.balance client' = (100 - 30)%float /\
     Client.movements client' = [] ++ [[Lit "Withdrawn: -"; Float 30]] /\
     movements db' =
       movements alice_db ++ [mk_movement_row (1 + 1) 1 "Withdraw" (stored_real (- (30)))] /\
     forall k,
       persisted_balance db' k =
       if k =? 1
       then option_map (fun _ => stored_real (100 - 30)) (persisted_balance alice_db k)
       else persisted_balance alice_db k)
  /\
  client_withdraw endless_db endless infinity = Raise IntegrityError.
Proof.
  split; [|split].
  - apply (proj1 (withdraw_contract alice_db alice 1000)). left. reflexivity.
  - apply (proj1 (proj2 (withdraw_contract alice_db alice 30)));
      [reflexivity|reflexivity|left; reflexivity].
  - apply (proj1 (proj2 (proj2 (withdraw_contract endless_db endless infinity))));
      reflexivity.
Defined.

(** ** Transfer *)

(** What a transfer stores when both accounts exist and no statement
    raises. *)
Lemma client_transfer_carried_out
    (db : Db) (client_from client_to : Client.t) (client_to_id : Z) (amount : float) :
  find_client db client_to_id = Ok (Some client_to) ->
  (amount <=? Client.balance client_from)%float = true ->
  in_int64 (Client.id client_from) = true ->
  is_nan (Client.balance client_from - amount)%float = false \/
  has_row db (Client.id client_from) = false ->
  is_nan (Client.balance client_to + amount)%float = false ->
  client_transfer db client_from client_to_id amount =
  Ok (sender client_from client_to_id amount,
      transferred db client_from client_to amount, []).
Proof.
  intros Hf G Hk Hb1 Hb2. unfold client_transfer. rewrite Hf. cbn [bind]. rewrite G.
  cbn [Client.set_balance Client.append_movement Client.id Client.balance].
  pose proof (find_client_id _ _ _ Hf) as Hid.
  pose proof (find_client_in_range _ _ _ Hf) as Hto. rewrite <- Hid in Hto.
  destruct (float_leb_not_nan _ _ G) as [Ha _].
  rewrite execute_update_balance_stores by auto. cbn [bind].
  rewrite execute_update_balance_stores by auto. cbn [bind].
  rewrite execute_insert_movement_stores by (auto using float_opp_not_nan). cbn [bind].
  rewrite execute_insert_movement_stores by auto. cbn [bind].
  reflexivity.
Qed.

(** The stored balances after the statements of a transfer. *)
Lemma persisted_transferred (db : Db) (c ct : Client.t) (amount : float) (k : Z) :
  persisted_balance (transferred db c ct amount) k =
  if k =? Client.id ct
  then option_map (fun _ => stored_real (Client.balance ct + amount))
         (persisted_balance db k)
  else if k =? Client.id c
       then option_map (fun _ => stored_real (Client.balance c - amount))
              (persisted_balance db k)
       else persisted_balance db k.
Proof.
  unfold transferred.
  rewrite !persisted_insert_movement, !persisted_update_balance.
  destruct (k =? Client.id ct); [|reflexivity].
  destruct (k =? Client.id c); [|reflexivity].
  now destruct (persisted_balance db k).
Qed.

Lemma movements_transferred (db : Db) (c ct : Client.t) (amount : float) :
  movements (transferred db c ct amount) =
  movements db ++
  [mk_movement_row (movements_seq db + 1) (Client.id c) "Transfer Out"
     (stored_real (- amount));
   mk_movement_row (movements_seq db + 1 + 1) (Client.id ct) "Transfer In"
     (stored_real amount)].
Proof. unfold transferred. cbn. now rewrite <- app_assoc. Qed.

(** A transfer to the identifier 2^63, which no account carries, raises
    [OverflowError] in [find_client]: nothing is reported as not found. *)
Lemma unbindable_destination_is_not_reported :
  select_client alice_db (2 ^ 63) = None /\
  client_transfer alice_db alice (2 ^ 63) 20 = Raise OverflowError.
Proof. split; reflexivity. Qed.

(** C6 (as the code has it). A transfer whose destination identifier has
    no row: when the identifier fits in SQLite's 64 bits, the transfer
    prints "Client to transfer to not found." and returns the source object
    and the database as they were (no balance changes, no movement is
    created); when it does not fit, [find_client] raises [OverflowError],
    nothing is printed and nothing is stored. *)
Theorem transfer_missing_destination
    (db : Db) (client_from : Client.t) (client_to_id : Z) (amount : float) :
  select_client db client_to_id = None ->
  (in_int64 client_to_id = true ->
   client_transfer db client_from client_to_id amount =
   Ok (client_from, db, [Text "Client to transfer to not found."]))
  /\
  (in_int64 client_to_id = false ->
   client_transfer db client_from client_to_id amount = Raise OverflowError).
Proof.
  intros H. split; intros Hk; unfold client_transfer.
  - now rewrite (proj2 (find_client_None db client_to_id) (conj Hk H)).
  - now rewrite (find_client_out_of_range db client_to_id Hk).
Qed.

Lemma transfer_missing_destination_witness :
  select_client alice_db 7 = None /\
  select_client alice_db (2 ^ 63) = None /\
  client_transfer alice_db alice 7 20 =
    Ok (alice, alice_db, [Text "Client to transfer to not found."]) /\
  client_transfer alice_db alice (2 ^ 63) 20 = Raise OverflowError.
Proof.
  split; [reflexivity|]. split; [reflexivity|]. split.
  - apply (proj1 (transfer_missing_destination alice_db alice 7 20 eq_refl)). reflexivity.
  - apply (proj2 (transfer_missing_destination alice_db alice (2 ^ 63) 20 eq_refl)).
    reflexivity.
Defined.

(** A transfer of [inf] from an account holding [inf] to itself passes the
    test [amount <= balance], but the debit [inf - inf] is NaN: the UPDATE
    raises [IntegrityError] and the transfer does not succeed. *)
Lemma endless_self_transfer_raises :
  find_client endless_db 1 = Ok (Some endless) /\
  persisted_balance endless_db 1 = Some (Client.balance endless) /\
  (infinity <=? Client.balance endless)%float = true /\
  client_transfer endless_db endless 1 infinity = Raise IntegrityError.
Proof. repeat split. Qed.

(** C7 (as the code has it). A transfer from an account to itself, from a
    client object that shows the stored balance [b], of an amount with
    [a <= b]: when neither [b - a] nor [b + a] is NaN, it prints nothing,
    leaves the balance of the object at [b - a] and the stored balance at
    the binary64 sum [b + a], and appends the rows [(x, 'Transfer Out', -a)]
    and [(x, 'Transfer In', a)] (a REAL column holding 0.0 for -0.0), whose
    amounts add up to zero unless [a] is infinite; when one of [b - a] and
    [b + a] is NaN, the UPDATE raises [IntegrityError] and nothing is
    stored. *)
Theorem self_transfer (db : Db) (client : Client.t) (a : float) :
  in_int64 (Client.id client) = true ->
  mirrors db client ->
  (a <=? Client.balance client)%float = true ->
  (is_nan (Client.balance client - a)%float = false ->
   is_nan (Client.balance client + a)%float = false ->
   exists client' db',
     client_transfer db client (Client.id client) a = Ok (client', db', []) /\
     Client.balance client' = (Client.balance client - a)%float /\
     persisted_balance db' (Client.id client) =
       Some (stored_real (Client.balance client + a)) /\
     movements db' =
       movements db ++
       [mk_movement_row (movements_seq db + 1) (Client.id client) "Transfer Out"
          (stored_real (- a));
        mk_movement_row (movements_seq db + 1 + 1) (Client.id client) "Transfer In"
          (stored_real a)])
  /\
  (is_infinity a = false -> (stored_real (- a) + stored_real a)%float = 0%float)
  /\
  (is_nan (Client.balance client - a)%float = true \/
   is_nan (Client.balance client + a)%float = true ->
   client_transfer db client (Client.id client) a = Raise IntegrityError).
Proof.
  intros Hk [b [Hm Hb]] G.
  unfold persisted_balance in Hm.
  destruct (select_client db (Client.id client)) as [r|] eqn:Hr; [|discriminate].
  cbn in Hm. injection Hm as Hrb.
  pose proof (select_client_id _ _ _ Hr) as Hrid.
  assert (Hf : find_client db (Client.id client) =
               Ok (Some (Client.init (row_id r) (row_first_name r) (row_balance r)
                           (row_occupation r)))).
  { rewrite (find_client_row db _ Hk), Hr. reflexivity. }
  assert (Hsum : stored_real (row_balance r + a) = stored_real (Client.balance client + a)).
  { rewrite Hrb. now apply add_alike. }
  pose proof (is_nan_alike _ _ Hsum) as Hnan_sum.
  split; [|split].
  - intros Hb1 Hb2.
    rewrite (client_transfer_carried_out db client _ _ a Hf G Hk (or_introl Hb1))
      by (cbn; now rewrite Hnan_sum).
    eexists; eexists. split; [reflexivity|]. split; [reflexivity|]. split.
    + rewrite persisted_transferred. cbn [Client.init Client.id Client.balance].
      rewrite Hrid, Z.eqb_refl. unfold persisted_balance. rewrite Hr. cbn.
      now rewrite Hsum.
    + rewrite movements_transferred. cbn [Client.init Client.id]. now rewrite Hrid.
  - apply stored_opposites_cancel. exact (proj1 (float_leb_not_nan _ _ G)).
  - intros Hnan. unfold client_transfer. rewrite Hf. cbn [bind]. rewrite G.
    cbn [Client.set_balance Client.append_movement Client.id Client.balance Client.init].
    unfold execute_update_balance at 1. unfold bind_int. rewrite Hk. cbn [bind].
    assert (Hrow : has_row db (Client.id client) = true) by (unfold has_row; now rewrite Hr).
    rewrite Hrow.
    destruct (is_nan (Client.balance client - a)%float) eqn:E1; [reflexivity|].
    cbn [andb bind].
    destruct Hnan as [Hnan|Hnan]; [discriminate|].
    unfold execute_update_balance, bind_int. rewrite Hrid, Hk. cbn [bind].
    rewrite Hnan_sum, Hnan, has_row_update_balance, Hrow. reflexivity.
Qed.

Lemma self_transfer_witness :
  in_int64 (Client.id alice) = true /\
  mirrors alice_db alice /\
  (30 <=? Client.balance alice)%float = true /\
  (exists client' db',
     client_transfer alice_db alice 1 30 = Ok (client', db', []) /\
     Client.balance client' = (100 - 30)%float /\
     persisted_balance db' 1 = Some (stored_real (100 + 30)) /\
     movements db' =
       movements alice_db ++
       [mk_movement_row (1 + 1) 1 "Transfer Out" (stored_real (- (30)));
        mk_movement_row (1 + 1 + 1) 1 "Transfer In" (stored_real 30)]) /\
  (stored_real (- (30)) + stored_real 30)%float = 0%float /\
  client_transfer endless_db endless 1 infinity = Raise IntegrityError.
Proof.
  assert (Ha : mirrors alice_db alice) by (exists 100%float; split; reflexivity).
  assert (He : mirrors endless_db endless) by (exists infinity; split; reflexivity).
  split; [reflexivity|]. split; [exact Ha|]. split; [reflexivity|]. split; [|split].
  - apply (proj1 (self_transfer alice_db alice 30 eq_refl Ha eq_refl)); reflexivity.
  - apply (proj1 (proj2 (self_transfer alice_db alice 30 eq_refl Ha eq_refl))).
    reflexivity.
  - apply (proj2 (proj2 (self_transfer endless_db endless infinity eq_refl He eq_refl))).
    left. reflexivity.
Defined.

(** ** Reads *)

(** C10. Any sequence of [client_check_balance] and [client_show_movements]
    calls, of any length and in any order, returns the client object and the
    whole database (every balance, every movement) as they were, and raises
    nothing. *)
Theorem reads_leave_state (db : Db) (client : Client.t) (session : list ClientActions) :
  forallb is_read session = true ->
  final (client_loop db client session) = (client, db) /\
  raised (client_loop db client session) = None.
Proof.
  induction session as [|a rest IH]; intros H.
  - split; reflexivity.
  - cbn [forallb] in H. apply andb_true_iff in H. destruct H as [Ha Hrest].
    specialize (IH Hrest).
    destruct a; try discriminate; cbn [client_loop client_step final raised]; exact IH.
Qed.

Lemma reads_leave_state_witness :
  forallb is_read [CHECK_BALANCE; SHOW_MOVEMENTS; SHOW_MOVEMENTS; CHECK_BALANCE] = true /\
  final (client_loop alice_db alice
           [CHECK_BALANCE; SHOW_MOVEMENTS; SHOW_MOVEMENTS; CHECK_BALANCE])
  = (alice, alice_db) /\
  raised (client_loop alice_db alice
            [CHECK_BALANCE; SHOW_MOVEMENTS; SHOW_MOVEMENTS; CHECK_BALANCE])
  = None.
Proof.
  split; [reflexivity|].
  apply (reads_leave_state alice_db alice
           [CHECK_BALANCE; SHOW_MOVEMENTS; SHOW_MOVEMENTS; CHECK_BALANCE]).
  reflexivity.
Defined.

(** ** Amounts that are not positive *)

(** A deposit of -5 into Alice's account is carried out: nothing is printed,
    the persisted balance falls from 100 to 95 and a movement is recorded. *)
Lemma nonpositive_deposit_is_applied :
  (-5 <=? 0)%float = true /\
  persisted_balance alice_db 1 = Some 100%float /\
  exists client' db',
    client_deposit alice_db alice (-5) = Ok (client', db', []) /\
    Client.balance client' = 95%float /\
    persisted_balance db' 1 = Some 95%float /\
    movements db' = movements alice_db ++ [mk_movement_row 2 1 "Deposit" (-5)].
Proof.
  split; [reflexivity|]. split; [reflexivity|].
  eexists; eexists. split; [reflexivity|]. repeat split.
Qed.

(** C5 (as the code has it). No operation refuses an amount for not being
    positive.  With [amount <= 0], a deposit is carried out like any other:
    nothing is printed, the balance of the object becomes
    [balance + amount], the row of the account is updated to it and a row
    [(client.id, 'Deposit', amount)] is appended.  A withdrawal or a
    transfer to an existing account is carried out whenever
    [amount <= balance]: nothing is printed, the balance of the object
    becomes [balance - amount], the row of the account is updated to it,
    for a transfer the row of the destination is updated to its balance
    plus [amount], and the Withdraw row, respectively the Transfer Out and
    Transfer In rows, are appended; otherwise it prints
    "Insufficient funds." and changes nothing.  (Sums and differences are
    those of binary64; a row refuses a new balance that is NaN, and the
    identifier of the object is one SQLite can hold.) *)
Theorem nonpositive_amount_not_rejected (db : Db) (client : Client.t) (amount : float) :
  (amount <=? 0)%float = true ->
  in_int64 (Client.id client) = true ->
  (is_nan (Client.balance client + amount)%float = false \/
   has_row db (Client.id client) = false ->
   exists client' db',
     client_deposit db client amount = Ok (client', db', []) /\
     Client.balance client' = (Client.balance client + amount)%float /\
     (forall k,
        persisted_balance db' k =
        if k =? Client.id client
        then option_map (fun _ => stored_real (Client.balance client + amount))
                        (persisted_balance db k)
        else persisted_balance db k) /\
     movements db' =
       movements db ++
       [mk_movement_row (movements_seq db + 1) (Client.id client) "Deposit"
          (stored_real amount)])
  /\
  ((amount <=? Client.balance client)%float = true ->
   is_nan (Client.balance client - amount)%float = false \/
   has_row db (Client.id client) = false ->
   exists client' db',
     client_withdraw db client amount = Ok (client', db', []) /\
     Client.balance client' = (Client.balance client - amount)%float /\
     (forall k,
        persisted_balance db' k =
        if k =? Client.id client
        then option_map (fun _ => stored_real (Client.balance client - amount))
                        (persisted_balance db k)
        else persisted_balance db k) /\
     movements db' =
       movements db ++
       [mk_movement_row (movements_seq db + 1) (Client.id client) "Withdraw"
          (stored_real (- amount))])
  /\
  ((amount <=? Client.balance client)%float = false ->
   client_withdraw db client amount = Ok (client, db, [Text "Insufficient funds."]))
  /\
  (forall client_to_id client_to,
     find_client db client_to_id = Ok (Some client_to) ->
     ((amount <=? Client.balance client)%float = true ->
      is_nan (Client.balance client - amount)%float = false \/
      has_row db (Client.id client) = false ->
      is_nan (Client.balance client_to + amount)%float = false ->
      exists client' db',
        client_transfer db client client_to_id amount = Ok (client', db', []) /\
        Client.balance client' = (Client.balance client - amount)%float /\
        (forall k,
           persisted_balance db' k =
           if k =? client_to_id
           then option_map (fun _ => stored_real (Client.balance client_to + amount))
                           (persisted_balance db k)
           else if k =? Client.id client
                then option_map (fun _ => stored_real (Client.balance client - amount))
                                (persisted_balance db k)
                else persisted_balance db k) /\
        movements db' =
          movements db ++
          [mk_movement_row (movements_seq db + 1) (Client.id client)
             "Transfer Out" (stored_real (- amount));
           mk_movement_row (movements_seq db + 1 + 1) client_to_id
             "Transfer In" (stored_real amount)])
     /\
     ((amount <=? Client.balance client)%float = false ->
      client_transfer db client client_to_id amount =
      Ok (client, db, [Text "Insufficient funds."]))).
Proof.
  intros Hneg Hk.
  destruct (float_leb_not_nan _ _ Hneg) as [Ha _].
  split; [|split; [|split]].
  - intros Hb. unfold client_deposit.
    cbn [Client.set_balance Client.append_movement Client.id Client.balance].
    rewrite execute_update_balance_stores by auto. cbn [bind].
    rewrite execute_insert_movement_stores by auto. cbn [bind].
    eexists; eexists. split; [reflexivity|]. repeat split.
    intros k. now rewrite persisted_insert_movement, persisted_update_balance.
  - intros G Hb. unfold client_withdraw. rewrite G.
    cbn [Client.set_balance Client.append_movement Client.id Client.balance].
    rewrite execute_update_balance_stores by auto. cbn [bind].
    rewrite execute_insert_movement_stores by (auto using float_opp_not_nan). cbn [bind].
    eexists; eexists. split; [reflexivity|]. repeat split.
    intros k. now rewrite persisted_insert_movement, persisted_update_balance.
  - intros G. unfold client_withdraw. now rewrite G.
  - intros client_to_id client_to Hf.
    pose proof (find_client_id _ _ _ Hf) as Hid. split.
    + intros G Hb1 Hb2.
      rewrite (client_transfer_carried_out db client client_to client_to_id amount
                 Hf G Hk Hb1 Hb2).
      eexists; eexists. split; [reflexivity|]. split; [reflexivity|]. split.
      * intros k. rewrite persisted_transferred. now rewrite Hid.
      * rewrite movements_transferred. now rewrite Hid.
    + intros G. unfold client_transfer. rewrite Hf. cbn [bind]. now rewrite G.
Qed.

Lemma nonpositive_amount_not_rejected_witness :
  (-5 <=? 0)%float = true /\
  find_client alice_bob_db 1 = Ok (Some alice0) /\
  find_client overdrawn_db 1 = Ok (Some overdrawn) /\
  (exists client' db',
     client_deposit alice_bob_db alice0 (-5) = Ok (client', db', []) /\
     Client.balance client' = (-5)%float /\
     persisted_balance db' 1 = Some (-5)%float) /\
  (exists client' db',
     client_withdraw alice_bob_db alice0 (-5) = Ok (client', db', []) /\
     Client.balance client' = 5%float /\
     persisted_balance db' 1 = Some 5%float) /\
  (exists client' db',
     client_transfer alice_bob_db alice0 2 (-5) = Ok (client', db', []) /\
     Client.balance client' = 5%float /\
     persisted_balance db' 1 = Some 5%float /\
     persisted_balance db' 2 = Some (-5)%float /\
     movements db' =
       [mk_movement_row 1 1 "Transfer Out" 5; mk_movement_row 2 2 "Transfer In" (-5)]) /\
  client_withdraw overdrawn_db overdrawn (-5) =
    Ok (overdrawn, overdrawn_db, [Text "Insufficient funds."]) /\
  client_transfer overdrawn_db overdrawn 1 (-5) =
    Ok (overdrawn, overdrawn_db, [Text "Insufficient funds."]).
Proof.
  destruct (nonpositive_amount_not_rejected alice_bob_db alice0 (-5) eq_refl eq_refl)
    as [Hdep [Hwd [_ Htr]]].
  destruct (nonpositive_amount_not_rejected overdrawn_db overdrawn (-5) eq_refl eq_refl)
    as [_ [_ [Hno Hno_tr]]].
  split; [reflexivity|]. split; [reflexivity|]. split; [reflexivity|].
  split; [|split; [|split; [|split]]].
  - destruct (Hdep (or_introl eq_refl)) as [c [d [E [Hb [Hp _]]]]]. exists c, d.
    split; [exact E|]. split; [exact Hb|]. exact (Hp 1).
  - destruct (Hwd eq_refl (or_introl eq_refl)) as [c [d [E [Hb [Hp _]]]]]. exists c, d.
    split; [exact E|]. split; [exact Hb|]. exact (Hp 1).
  - destruct (Htr 2 (Client.init 2 "Bob" 0 (Some "")) eq_refl) as [Hyes _].
    destruct (Hyes eq_refl (or_introl eq_refl) eq_refl) as [c [d [E [Hb [Hp Hm]]]]].
    exists c, d.
    split; [exact E|]. split; [exact Hb|]. split; [exact (Hp 1)|].
    split; [exact (Hp 2)|exact Hm].
  - apply Hno. reflexivity.
  - destruct (Hno_tr 1 overdrawn eq_refl) as [_ Hrefuse].
    apply Hrefuse. reflexivity.
Defined.

(** ** Balances that stay non-negative *)

Lemma nonneg_update_balance (db : Db) (b : float) (cid : Z) :
  (0 <=? b)%float = true -> nonneg_balances db ->
  nonneg_balances (update_balance db b cid).
Proof.
  unfold nonneg_balances, update_balance. cbn [clients]. intros Hb H.
  induction H as [|r rs Hr Hrs IH]; cbn [map]; constructor; auto.
  destruct (row_id r =? cid); cbn [row_balance]; [|assumption].
  now rewrite leb_stored_real_r.
Qed.

Lemma nonneg_create_account (db : Db) (first_name : string) (occupation : option string) :
  nonneg_balances db -> nonneg_balances (create_account db first_name occupation).
Proof.
  unfold nonneg_balances, create_account, insert_client. cbn [clients]. intros H.
  apply Forall_app. split; [exact H|]. constructor; [reflexivity|constructor].
Qed.

Lemma nonneg_close_account (db db' : Db) (cid : Z) :
  nonneg_balances db -> close_account db cid = Ok db' -> nonneg_balances db'.
Proof.
  unfold close_account, bind_int. destruct (in_int64 cid); [|discriminate].
  cbn [bind]. intros H [= <-].
  unfold nonneg_balances, delete_movements, delete_client in *.
  cbn [clients]. rewrite Forall_forall in *.
  intros r Hr. apply filter_In in Hr. now apply H.
Qed.

Lemma nonneg_find_client (db : Db) (k : Z) (c : Client.t) :
  nonneg_balances db -> find_client db k = Ok (Some c) ->
  (0 <=? Client.balance c)%float = true.
Proof.
  intros H Hc. destruct (find_client_Some _ _ _ Hc) as [r [Hr ->]]. cbn.
  unfold nonneg_balances in H. rewrite Forall_forall in H.
  apply H. exact (select_client_In _ _ _ Hr).
Qed.

Lemma has_row_insert_movement (db : Db) (cid : Z) (action : string) (amount : float) (k : Z) :
  has_row (insert_movement db cid action amount) k = has_row db k.
Proof. reflexivity. Qed.

(** The steps of a session whose deposits and transfers are not negative
    keep every balance, and the balance of the object, from falling below
    zero. *)
Lemma nonneg_effect (db db' : Db) (c c' : Client.t) (a : ClientActions) :
  amount_nonneg a = true ->
  nonneg_balances db ->
  has_row db (Client.id c) = true /\ (0 <=? Client.balance c)%float = true ->
  effect db c a c' db' ->
  nonneg_balances db' /\
  (has_row db' (Client.id c') = true /\ (0 <=? Client.balance c')%float = true).
Proof.
  intros Ha Hdb [Hrow Hc] He.
  destruct He as [a|x G Hk Hb|x Hk Hb|t x ct Hf G Hk Hb Hb2]; cbn [amount_nonneg] in Ha;
    try apply negb_true_iff in Ha.
  - auto.
  - assert (Hd : (0 <=? Client.balance c - x)%float = true).
    { destruct Hb as [Hb|Hb]; [|congruence].
      destruct (float_sub_nonneg _ _ G) as [N|N]; [congruence|exact N]. }
    split; [|split].
    + unfold withdrawn. now apply nonneg_update_balance.
    + unfold withdrawn. cbn [withdrawer Client.id Client.append_movement Client.set_balance].
      now rewrite has_row_insert_movement, has_row_update_balance.
    + exact Hd.
  - assert (Hs : is_nan (Client.balance c + x)%float = false)
      by (destruct Hb as [Hb|Hb]; [exact Hb|congruence]).
    assert (Hx : (0 <=? x)%float = true).
    { apply float_not_neg; [|exact Ha]. apply not_true_iff_false. intros N.
      rewrite (is_nan_add_r _ _ N) in Hs. discriminate. }
    assert (Hd : (0 <=? Client.balance c + x)%float = true)
      by now apply float_add_nonneg.
    split; [|split].
    + unfold deposited. now apply nonneg_update_balance.
    + unfold deposited. cbn [depositor Client.id Client.append_movement Client.set_balance].
      now rewrite has_row_insert_movement, has_row_update_balance.
    + exact Hd.
  - assert (Hd : (0 <=? Client.balance c - x)%float = true).
    { destruct Hb as [Hb|Hb]; [|congruence].
      destruct (float_sub_nonneg _ _ G) as [N|N]; [congruence|exact N]. }
    pose proof (nonneg_find_client _ _ _ Hdb Hf) as Ht.
    assert (Hx : (0 <=? x)%float = true)
      by (apply float_not_neg; [exact (proj1 (float_leb_not_nan _ _ G))|exact Ha]).
    assert (Hs : (0 <=? Client.balance ct + x)%float = true)
      by now apply float_add_nonneg.
    split; [|split].
    + unfold transferred.
      apply (nonneg_update_balance _ _ _ Hs). exact (nonneg_update_balance _ _ _ Hd Hdb).
    + unfold transferred. cbn [sender Client.id Client.append_movement Client.set_balance].
      now rewrite !has_row_insert_movement, !has_row_update_balance.
    + exact Hd.
Qed.

(** A transfer of -5 from Alice to Bob, both at balance 0, leaves Bob's
    persisted balance at -5. *)
Lemma negative_transfer_overdraws_destination :
  nonneg_balances alice_bob_db /\
  raised (main alice_bob_db [CLIENT_ACTIONS 1 [TRANSFER 2 (-5)]]) = None /\
  persisted_balance
    (final (main alice_bob_db [CLIENT_ACTIONS 1 [TRANSFER 2 (-5)]])) 2 = Some (-5)%float /\
  ~ nonneg_balances (final (main alice_bob_db [CLIENT_ACTIONS 1 [TRANSFER 2 (-5)]])).
Proof.
  split; [|split; [|split]].
  - repeat constructor.
  - reflexivity.
  - reflexivity.
  - intros H. unfold nonneg_balances in H. rewrite Forall_forall in H.
    assert (Hin : In (mk_client_row 2 "Bob" (-5) (Some ""))
                     (clients (final (main alice_bob_db
                                        [CLIENT_ACTIONS 1 [TRANSFER 2 (-5)]]))))
      by (vm_compute; auto).
    apply H in Hin. vm_compute in Hin. discriminate.
Qed.

(** C2 (as the code has it). From a database in which every balance is
    non-negative, a run of [main] in which no amount deposited or
    transferred is negative (the amounts withdrawn may be any numbers)
    ends in a database in which every balance is non-negative. *)
Theorem balances_stay_nonneg (input : list BankActions) :
  forall db : Db,
  nonneg_balances db ->
  forallb amounts_nonneg input = true ->
  nonneg_balances (final (main db input)).
Proof.
  apply (main_invariant nonneg_balances
           (fun db c => has_row db (Client.id c) = true /\
                        (0 <=? Client.balance c)%float = true)
           (fun _ => amount_nonneg) amounts_nonneg).
  - intros k session H. exact H.
  - intros db k c Hdb Hc. split.
    + rewrite (find_client_id _ _ _ Hc). exact (find_client_has_row _ _ _ Hc).
    + exact (nonneg_find_client _ _ _ Hdb Hc).
  - intros db c a c' db'. apply nonneg_effect.
  - intros db n o _. apply nonneg_create_account.
  - intros db k db'. apply nonneg_close_account.
Qed.

Lemma balances_stay_nonneg_witness :
  nonneg_balances alice_bob_db /\
  nonneg_balances
    (final (main alice_bob_db
              [CLIENT_ACTIONS 1 [DEPOSIT 50; TRANSFER 2 20; WITHDRAW 30; WITHDRAW 1;
                                 WITHDRAW (-3)];
               CLIENT_ACTIONS 2 [TRANSFER 1 20; TRANSFER 2 5; TRANSFER 1 nan]])).
Proof.
  assert (H : nonneg_balances alice_bob_db) by (repeat constructor).
  split; [exact H|].
  apply (balances_stay_nonneg
           [CLIENT_ACTIONS 1 [DEPOSIT 50; TRANSFER 2 20; WITHDRAW 30; WITHDRAW 1;
                              WITHDRAW (-3)];
            CLIENT_ACTIONS 2 [TRANSFER 1 20; TRANSFER 2 5; TRANSFER 1 nan]]
           alice_bob_db H).
  reflexivity.
Defined.

(** ** Closing an account *)

Lemma fold_left_max_bound (l : list Z) :
  forall a, a <= fold_left Z.max l a /\ forall x, In x l -> x <= fold_left Z.max l a.
Proof.
  induction l as [|y l IH]; intros a; cbn [fold_left].
  - split; [lia|intros x []].
  - destruct (IH (Z.max a y)) as [H1 H2]. split; [lia|].
    intros x [<-|Hx]; [lia|now apply H2].
Qed.

Lemma next_rowid_above (rows : list client_row) (r : client_row) :
  In r rows -> row_id r < next_rowid rows.
Proof.
  destruct rows as [|r0 rs]; [intros []|]. cbn [next_rowid].
  destruct (fold_left_max_bound (map row_id rs) (row_id r0)) as [H1 H2].
  intros [<-|Hr]; [lia|].
  specialize (H2 (row_id r) (in_map row_id _ _ Hr)). lia.
Qed.

Lemma select_next_rowid (db : Db) :
  select_client db (next_rowid (clients db)) = None.
Proof.
  apply select_client_None. intros Hin.
  apply in_map_iff in Hin. destruct Hin as [r [Hr Hin]].
  apply next_rowid_above in Hin. lia.
Qed.

Lemma find_snoc {A : Type} (p : A -> bool) (l : list A) (x : A) :
  find p (l ++ [x]) =
  match find p l with
  | Some y => Some y
  | None => if p x then Some x else None
  end.
Proof.
  induction l as [|y l IH]; cbn [app find]; [reflexivity|].
  now destruct (p y).
Qed.

Lemma select_insert_client (db : Db) (n : string) (b : float) (o : option string) (k : Z) :
  select_client (insert_client db n b o) k =
  match select_client db k with
  | Some r => Some r
  | None =>
      if next_rowid (clients db) =? k
      then Some (mk_client_row (next_rowid (clients db)) n (stored_real b) o)
      else None
  end.
Proof.
  unfold select_client, insert_client. cbn [clients]. now rewrite find_snoc.
Qed.

Lemma close_account_Ok (db db' : Db) (k : Z) :
  close_account db k = Ok db' ->
  in_int64 k = true /\ db' = delete_movements (delete_client db k) k.
Proof.
  unfold close_account, bind_int. destruct (in_int64 k); [|discriminate].
  cbn [bind]. now intros [= <-].
Qed.

Lemma close_account_in_range (db : Db) (k : Z) :
  in_int64 k = true ->
  close_account db k = Ok (delete_movements (delete_client db k) k).
Proof. unfold close_account, bind_int. now intros ->. Qed.

Lemma absent_closed (db : Db) (cid : Z) :
  absent (delete_movements (delete_client db cid) cid) cid.
Proof.
  split.
  - change (select_client (delete_client db cid) cid = None).
    now rewrite select_delete_client, Z.eqb_refl.
  - now rewrite movements_of_delete_movements, Z.eqb_refl.
Qed.

Lemma absent_close_account (db db' : Db) (k cid : Z) :
  absent db cid -> close_account db k = Ok db' -> absent db' cid.
Proof.
  intros [Hf Hm] H. apply close_account_Ok in H. destruct H as [_ ->]. split.
  - change (select_client (delete_client db k) cid = None).
    rewrite select_delete_client. now destruct (cid =? k).
  - rewrite movements_of_delete_movements.
    destruct (cid =? k); [reflexivity|exact Hm].
Qed.

Lemma absent_update_balance (db : Db) (b : float) (k cid : Z) :
  absent db cid -> absent (update_balance db b k) cid.
Proof.
  unfold absent. intros [Hf Hm]. split; [|exact Hm].
  now apply select_update_None.
Qed.

Lemma absent_insert_movement (db : Db) (k cid : Z) (action : string) (amount : float) :
  k <> cid -> absent db cid -> absent (insert_movement db k action amount) cid.
Proof.
  unfold absent. intros Hk [Hf Hm]. split; [exact Hf|].
  now rewrite movements_of_insert_other.
Qed.

Lemma absent_effect (db db' : Db) (c c' : Client.t) (a : ClientActions) (cid : Z) :
  absent db cid -> Client.id c <> cid ->
  effect db c a c' db' -> absent db' cid.
Proof.
  intros Hdb Hc He.
  destruct He as [a|x G Hk Hb|x Hk Hb|t x ct Hf G Hk Hb Hb2].
  - exact Hdb.
  - unfold withdrawn. apply absent_insert_movement; [exact Hc|].
    now apply absent_update_balance.
  - unfold deposited. apply absent_insert_movement; [exact Hc|].
    now apply absent_update_balance.
  - assert (Ht : Client.id ct <> cid).
    { destruct (find_client_Some _ _ _ Hf) as [r [Hr ->]]. cbn.
      rewrite (select_client_id _ _ _ Hr). intros ->.
      destruct Hdb as [Hn _]. congruence. }
    unfold transferred.
    apply absent_insert_movement; [exact Ht|].
    apply absent_insert_movement; [exact Hc|].
    now do 2 apply absent_update_balance.
Qed.

(** A choice other than "Create Account" gives no row and no movement to
    an identifier that has none. *)
Lemma absent_bank_step (db : Db) (a : BankActions) (r : ended Db) (cid : Z) :
  no_create a = true -> absent db cid ->
  bank_step db a = Some r -> absent (final r) cid.
Proof.
  apply (bank_step_invariant (fun db => absent db cid) (fun _ c => Client.id c <> cid)
           (fun _ _ => true) no_create).
  - intros k session _. apply forallb_const_true.
  - intros db0 k c [Hf _] Hk. rewrite (find_client_id _ _ _ Hk).
    intros ->. destruct (find_client_Some _ _ _ Hk) as [r0 [Hr0 _]]. congruence.
  - intros db0 c a0 c' db' _ Hdb Hc He. split.
    + exact (absent_effect _ _ _ _ _ _ Hdb Hc He).
    + now rewrite (effect_id _ _ _ _ _ He).
  - intros db0 n o H. discriminate.
  - intros db0 k db'. apply absent_close_account.
Qed.

(** An identifier without row and movements stays so for as long as no
    new account receives it. *)
Lemma absent_main (later : list BankActions) (cid : Z) :
  forall db : Db,
  ~ In cid (created_ids db later) -> absent db cid ->
  absent (final (main db later)) cid.
Proof.
  induction later as [|a rest IH]; intros db Hnew Hdb; [exact Hdb|].
  cbn [main created_ids] in *.
  destruct (bank_step db a) as [r|] eqn:E; [|exact Hdb].
  assert (Hr : absent (final r) cid).
  { destruct (no_create a) eqn:Ha.
    - exact (absent_bank_step _ _ _ _ Ha Hdb E).
    - destruct a; try discriminate Ha. cbn [bank_step] in E. injection E as <-.
      cbn [final]. destruct Hdb as [Hf Hm]. split; [|exact Hm].
      unfold create_account. rewrite select_insert_client, Hf.
      destruct (next_rowid (clients db) =? cid) eqn:Ek; [|reflexivity].
      exfalso. apply Hnew. apply in_or_app. left. left.
      now apply Z.eqb_eq. }
  destruct (raised r); [exact Hr|]. cbn [final].
  apply IH; [|exact Hr].
  intros Hin. apply Hnew. apply in_or_app. now right.
Qed.

(** After account 1 is closed, the next account created receives the
    identifier 1 again, and a lookup of 1 finds it. *)
Lemma closed_identifier_is_reused :
  find_client alice_db 1 = Ok (Some alice) /\
  find_client (final (main alice_db [CLOSE_ACCOUNT 1])) 1 = Ok None /\
  raised (main alice_db [CLOSE_ACCOUNT 1; CREATE_ACCOUNT "Bob" ""]) = None /\
  find_client
    (final (main alice_db [CLOSE_ACCOUNT 1; CREATE_ACCOUNT "Bob" ""])) 1 =
  Ok (Some (Client.init 1 "Bob" 0 (Some ""))).
Proof. repeat split. Qed.

(** C9 (as the code has it). [close_account], for an identifier SQLite can
    hold (as every existing one is), removes the row of the account and
    every movement whose [client_id] is the account: right after the call,
    and after any further choices of the main menu for as long as no
    "Create Account" is given the identifier again, [find_client] returns
    [None] for the identifier and no movement of it is stored. *)
Theorem close_account_removes (db : Db) (client_id : Z) (later : list BankActions) :
  in_int64 client_id = true ->
  exists db',
    close_account db client_id = Ok db' /\
    find_client db' client_id = Ok None /\
    movements_of db' client_id = [] /\
    (~ In client_id (created_ids db' later) ->
     find_client (final (main db' later)) client_id = Ok None /\
     movements_of (final (main db' later)) client_id = []).
Proof.
  intros Hk. exists (delete_movements (delete_client db client_id) client_id).
  pose proof (absent_closed db client_id) as H0.
  split; [now apply close_account_in_range|].
  split; [apply find_client_None; split; [exact Hk|exact (proj1 H0)]|].
  split; [exact (proj2 H0)|].
  intros Hnew. destruct (absent_main later client_id _ Hnew H0) as [Hf Hm].
  split; [|exact Hm]. apply find_client_None. now split.
Qed.

Lemma close_account_removes_witness :
  in_int64 1 = true /\
  exists db',
    close_account alice_bob_db 1 = Ok db' /\
    created_ids db'
      [CREATE_ACCOUNT "Carol" ""; CLIENT_ACTIONS 2 [DEPOSIT 10; TRANSFER 1 5];
       CLOSE_ACCOUNT 1; COUNT_CLIENTS] = [3] /\
    find_client
      (final (main db'
                [CREATE_ACCOUNT "Carol" ""; CLIENT_ACTIONS 2 [DEPOSIT 10; TRANSFER 1 5];
                 CLOSE_ACCOUNT 1; COUNT_CLIENTS])) 1 = Ok None /\
    movements_of
      (final (main db'
                [CREATE_ACCOUNT "Carol" ""; CLIENT_ACTIONS 2 [DEPOSIT 10; TRANSFER 1 5];
                 CLOSE_ACCOUNT 1; COUNT_CLIENTS])) 1 = [].
Proof.
  split; [reflexivity|].
  destruct (close_account_removes alice_bob_db 1
              [CREATE_ACCOUNT "Carol" ""; CLIENT_ACTIONS 2 [DEPOSIT 10; TRANSFER 1 5];
               CLOSE_ACCOUNT 1; COUNT_CLIENTS] eq_refl)
    as [db' [E [_ [_ H]]]].
  exists db'. split; [exact E|].
  assert (Hc : created_ids db'
                 [CREATE_ACCOUNT "Carol" ""; CLIENT_ACTIONS 2 [DEPOSIT 10; TRANSFER 1 5];
                  CLOSE_ACCOUNT 1; COUNT_CLIENTS] = [3]).
  { injection E as <-. reflexivity. }
  split; [exact Hc|].
  apply H. rewrite Hc. intros [Hin|[]]. discriminate Hin.
Defined.

(** ** Listing the movements *)

(** X21. What [client_show_movements] prints for an object that [find_client]
    has just built: the heading alone, whatever the movements table holds. *)
Lemma show_movements_after_lookup (db : Db) (k : Z) (c : Client.t) :
  find_client db k = Ok (Some c) ->
  client_show_movements c = [Text ("Client ID " ++ fmt k ++ " movements:")%string].
Proof.
  intros H. unfold client_show_movements.
  now rewrite (find_client_movements _ _ _ H), (find_client_id _ _ _ H).
Qed.

Lemma show_movements_after_lookup_witness :
  find_client alice_db 1 = Ok (Some alice) /\
  movements_of alice_db 1 = [mk_movement_row 1 1 "Deposit" 100] /\
  client_show_movements alice = [Text "Client ID 1 movements:"].
Proof.
  split; [reflexivity|]. split; [reflexivity|].
  apply (show_movements_after_lookup alice_db 1 alice). reflexivity.
Defined.

(** C8 (the code at the failing input). Alice deposits 100 and leaves the
    client menu; in her next session "Show Movements" prints the heading
    only, although the movements table holds her deposit. *)
Theorem show_movements_omits_earlier_session :
  movements_of
    (final (main empty_db
              [CREATE_ACCOUNT "Alice" ""; CLIENT_ACTIONS 1 [DEPOSIT 100];
               CLIENT_ACTIONS 1 [SHOW_MOVEMENTS]])) 1
  = [mk_movement_row 1 1 "Deposit" 100]
  /\
  printed (main empty_db
             [CREATE_ACCOUNT "Alice" ""; CLIENT_ACTIONS 1 [DEPOSIT 100];
              CLIENT_ACTIONS 1 [SHOW_MOVEMENTS]])
  = [Text "Client ID 1 movements:"]
  /\
  raised (main empty_db
            [CREATE_ACCOUNT "Alice" ""; CLIENT_ACTIONS 1 [DEPOSIT 100];
             CLIENT_ACTIONS 1 [SHOW_MOVEMENTS]])
  = None.
Proof. repeat split. Qed.

(** ** Reconciliation of balances and movements *)

(** C1 (the code at the failing input). Alice deposits 100 and transfers 30
    to her own account: her persisted balance is 130, the sum of her
    movements is 100. *)
Theorem self_transfer_breaks_reconciliation :
  reconciled alice_db /\
  raised (main alice_db [CLIENT_ACTIONS 1 [TRANSFER 1 30]]) = None /\
  persisted_balance
    (final (main alice_db [CLIENT_ACTIONS 1 [TRANSFER 1 30]])) 1 = Some 130%float /\
  movement_sum
    (final (main alice_db [CLIENT_ACTIONS 1 [TRANSFER 1 30]])) 1 = 100%float /\
  ~ reconciled (final (main alice_db [CLIENT_ACTIONS 1 [TRANSFER 1 30]])).
Proof.
  split; [|split; [|split; [|split]]].
  - intros r Hr. vm_compute in Hr. destruct Hr as [<-|[]]. reflexivity.
  - reflexivity.
  - reflexivity.
  - reflexivity.
  - intros H.
    specialize (H (mk_client_row 1 "Alice" 130 (Some ""))).
    assert (Hin : In (mk_client_row 1 "Alice" 130 (Some ""))
                     (clients (final (main alice_db [CLIENT_ACTIONS 1 [TRANSFER 1 30]]))))
      by (vm_compute; auto).
    apply H in Hin. apply (f_equal (fun x => (x =? 100)%float)) in Hin.
    vm_compute in Hin. discriminate.
Qed.

(** C3 (the code at the failing input). The transfer of 30 from account 1
    to account 1 is carried out (nothing printed, two movements appended),
    yet the balance of the account goes from 100 to 130: it is neither
    unchanged nor lowered by 30. *)
Theorem self_transfer_not_a_debit :
  persisted_balance alice_db 1 = Some 100%float /\
  exists client' db',
    client_transfer alice_db alice 1 30 = Ok (client', db', []) /\
    persisted_balance db' 1 = Some 130%float /\
    persisted_balance db' 1 <> persisted_balance alice_db 1 /\
    persisted_balance db' 1 <>
      option_map (fun b => (b - 30)%float) (persisted_balance alice_db 1) /\
    movements db' =
      movements alice_db ++
      [mk_movement_row 2 1 "Transfer Out" (-30); mk_movement_row 3 1 "Transfer In" 30].
Proof.
  split; [reflexivity|].
  eexists; eexists. split; [reflexivity|]. split; [reflexivity|].
  split; [|split; [|reflexivity]]; intros H;
    apply (f_equal (option_map (fun x => (x =? 130)%float))) in H;
    vm_compute in H; discriminate.
Qed.

(** ** What a transfer appends *)

(** X20. Whatever the accounts involved, a transfer leaves behind no new
    row at all or the Transfer Out row followed by the Transfer In row:
    never one row. *)
Theorem transfer_rows_none_or_two
    (db : Db) (client_from : Client.t) (client_to_id : Z) (amount : float) :
  movements (committed db (client_transfer db client_from client_to_id amount)) =
    movements db
  \/
  movements (committed db (client_transfer db client_from client_to_id amount)) =
    movements db ++
    [mk_movement_row (movements_seq db + 1) (Client.id client_from)
       "Transfer Out" (stored_real (- amount));
     mk_movement_row (movements_seq db + 1 + 1) client_to_id
       "Transfer In" (stored_real amount)].
Proof.
  destruct (client_transfer db client_from client_to_id amount) as [[[c' db'] out]|e] eqn:E;
    cbn [committed]; [|now left].
  change (client_step db client_from (TRANSFER client_to_id amount) = Ok (c', db', out)) in E.
  apply client_step_effect in E. destruct E as [E _].
  inversion E as [a| | |t x ct Hf G Hk Hb Hb2]; subst; [now left|].
  right. rewrite movements_transferred. now rewrite (find_client_id _ _ _ Hf).
Qed.

(** X19. A transfer between two different accounts, from an object that
    shows the stored balance of its account, is all or nothing: either
    nothing is stored (the call returns the object and the database as
    they were, or it raises), or the stored balance of the source becomes
    [balance - amount], the stored balance of the destination becomes its
    balance [+ amount] (both in binary64), and exactly the Transfer Out and
    Transfer In rows are appended. *)
Theorem transfer_between_distinct
    (db : Db) (client_from : Client.t) (client_to_id : Z) (amount b_to : float) :
  client_to_id <> Client.id client_from ->
  mirrors db client_from ->
  persisted_balance db client_to_id = Some b_to ->
  (exists out,
     client_transfer db client_from client_to_id amount = Ok (client_from, db, out))
  \/
  (exists e, client_transfer db client_from client_to_id amount = Raise e)
  \/
  (exists client' db',
     client_transfer db client_from client_to_id amount = Ok (client', db', []) /\
     Client.balance client' = (Client.balance client_from - amount)%float /\
     persisted_balance db' (Client.id client_from) =
       Some (stored_real (Client.balance client_from - amount)) /\
     persisted_balance db' client_to_id = Some (stored_real (b_to + amount)) /\
     movements db' =
       movements db ++
       [mk_movement_row (movements_seq db + 1) (Client.id client_from)
          "Transfer Out" (stored_real (- amount));
        mk_movement_row (movements_seq db + 1 + 1) client_to_id
          "Transfer In" (stored_real amount)]).
Proof.
  intros Hne [b [Hfrom _]] Hto.
  destruct (client_transfer db client_from client_to_id amount) as [[[c' db'] out]|e] eqn:E;
    [|right; left; eauto].
  pose proof E as E0.
  change (client_step db client_from (TRANSFER client_to_id amount) = Ok (c', db', out)) in E.
  apply client_step_effect in E. destruct E as [E Hout].
  inversion E as [a| | |t x ct Hf G Hk Hb Hb2]; subst; [left; eauto|].
  right. right.
  destruct Hout as [[Heq _]|[_ ->]].
  { exfalso. injection Heq as _ Heq. apply (f_equal movements_seq) in Heq.
    cbn in Heq. lia. }
  pose proof (find_client_id _ _ _ Hf) as Hid.
  pose proof (find_client_balance _ _ _ Hf) as Hbt.
  rewrite Hto in Hbt. injection Hbt as ->.
  eexists; eexists. split; [reflexivity|]. split; [reflexivity|]. split; [|split].
  - rewrite persisted_transferred, Hid.
    replace (Client.id client_from =? client_to_id) with false
      by (symmetry; apply Z.eqb_neq; congruence).
    now rewrite Z.eqb_refl, Hfrom.
  - rewrite persisted_transferred, Hid, Z.eqb_refl. now rewrite Hto.
  - rewrite movements_transferred. now rewrite Hid.
Qed.

Lemma transfer_between_distinct_witness :
  2 <> Client.id alice /\
  mirrors alice100_bob_db alice /\
  persisted_balance alice100_bob_db 2 = Some 0%float /\
  exists client' db',
    client_transfer alice100_bob_db alice 2 30 = Ok (client', db', []) /\
    Client.balance client' = 70%float /\
    persisted_balance db' 1 = Some 70%float /\
    persisted_balance db' 2 = Some 30%float.
Proof.
  assert (H : 2 <> Client.id alice) by (cbn; lia).
  assert (Hm : mirrors alice100_bob_db alice) by (exists 100%float; split; reflexivity).
  split; [exact H|]. split; [exact Hm|]. split; [reflexivity|].
  destruct (transfer_between_distinct alice100_bob_db alice 2 30 0 H Hm eq_refl)
    as [[out E]|[[e E]|[c [d [E [Hb [H1 [H2 _]]]]]]]].
  - apply (f_equal (fun r => movements_seq (committed alice100_bob_db r))) in E.
    vm_compute in E. discriminate E.
  - apply (f_equal (fun r => movements_seq (committed alice100_bob_db r))) in E.
    vm_compute in E. discriminate E.
  - exists c, d. split; [exact E|]. split; [exact Hb|]. split; [exact H1|exact H2].
Defined.

(** ** What a step of a session reports and what it changes *)

(** X1. Whenever a step of the client menu prints anything (an error or
    the answer of a read), it returns the client object and the database
    as they were. *)
Theorem printed_means_unchanged
    (db db' : Db) (c c' : Client.t) (a : ClientActions) (out : list line) :
  client_step db c a = Ok (c', db', out) ->
  out <> [] ->
  (c', db') = (c, db).
Proof.
  intros H Hout. apply client_step_effect in H.
  destruct H as [_ [[H _]|[_ H]]]; [exact H|contradiction].
Qed.

Lemma printed_means_unchanged_witness :
  client_step alice_db alice (WITHDRAW 1000) =
    Ok (alice, alice_db, [Text "Insufficient funds."]) /\
  (alice, alice_db) = (alice, alice_db).
Proof.
  split; [reflexivity|].
  apply (printed_means_unchanged alice_db alice_db alice alice (WITHDRAW 1000)
           [Text "Insufficient funds."]); [reflexivity|discriminate].
Defined.

(** X2. The outcomes of a transfer.  It is carried out (it returns having
    printed nothing) exactly when the destination exists, the amount does
    not exceed the balance of the source object, the identifier of the
    source is one SQLite can hold, and neither new balance is a NaN that a
    row would have to take.  When it returns, it has printed nothing
    exactly when it has changed the database.  It raises exactly when the
    destination identifier is one SQLite cannot hold, or the destination
    exists, the amount does not exceed the balance and one of the other
    conditions fails. *)
Theorem transfer_applied_iff
    (db : Db) (client_from : Client.t) (client_to_id : Z) (amount : float) :
  ((exists client' db',
      client_transfer db client_from client_to_id amount = Ok (client', db', []))
   <->
   exists client_to,
     find_client db client_to_id = Ok (Some client_to) /\
     (amount <=? Client.balance client_from)%float = true /\
     in_int64 (Client.id client_from) = true /\
     (is_nan (Client.balance client_from - amount)%float = false \/
      has_row db (Client.id client_from) = false) /\
     is_nan (Client.balance client_to + amount)%float = false)
  /\
  (forall client' db' out,
     client_transfer db client_from client_to_id amount = Ok (client', db', out) ->
     (out = [] <-> db' <> db))
  /\
  ((exists e, client_transfer db client_from client_to_id amount = Raise e)
   <->
   in_int64 client_to_id = false \/
   exists client_to,
     find_client db client_to_id = Ok (Some client_to) /\
     (amount <=? Client.balance client_from)%float = true /\
     (in_int64 (Client.id client_from) = false \/
      is_nan (Client.balance client_from - amount)%float = true /\
      has_row db (Client.id client_from) = true \/
      is_nan (Client.balance client_to + amount)%float = true)).
Proof.
  assert (Hstep : forall c' db' out,
            client_transfer db client_from client_to_id amount = Ok (c', db', out) ->
            effect db client_from (TRANSFER client_to_id amount) c' db' /\
            ((c', db') = (client_from, db) /\ out <> [] \/ db' <> db /\ out = [])).
  { intros c' db' out E.
    now apply (client_step_effect db db' client_from c' (TRANSFER client_to_id amount)). }
  split; [|split].
  - split.
    + intros [c' [db' E]]. destruct (Hstep _ _ _ E) as [He Hout].
      inversion He as [a| | |t x ct Hf G Hk Hb Hb2]; subst.
      * destruct Hout as [[_ H]|[H _]]; contradiction.
      * exists ct. auto.
    + intros [ct [Hf [G [Hk [Hb Hb2]]]]].
      rewrite (client_transfer_carried_out db client_from ct client_to_id amount
                 Hf G Hk Hb Hb2).
      eauto.
  - intros c' db' out E. destruct (Hstep _ _ _ E) as [_ [[Heq Hout]|[Hne Hout]]].
    + injection Heq as _ ->. split; [contradiction|intros H; now contradiction H].
    + split; [intros _; exact Hne|intros _; exact Hout].
  - split.
    + intros [e E]. pose proof E as E0. unfold client_transfer in E.
      destruct (in_int64 client_to_id) eqn:Hto; [right|now left].
      destruct (find_client db client_to_id) as [[ct|]|e0] eqn:Hf; cbn [bind] in E;
        try discriminate E.
      * exists ct. split; [reflexivity|].
        destruct (amount <=? Client.balance client_from)%float eqn:G; [|discriminate E].
        split; [reflexivity|].
        destruct (in_int64 (Client.id client_from)) eqn:Hk; [|now left]. right.
        destruct (is_nan (Client.balance ct + amount)%float) eqn:N2; [now right|]. left.
        destruct (is_nan (Client.balance client_from - amount)%float) eqn:N1;
          destruct (has_row db (Client.id client_from)) eqn:Hr;
          try (split; reflexivity); exfalso.
        -- rewrite (client_transfer_carried_out db client_from ct client_to_id amount
                      Hf G Hk (or_intror Hr) N2) in E0. discriminate E0.
        -- rewrite (client_transfer_carried_out db client_from ct client_to_id amount
                      Hf G Hk (or_introl N1) N2) in E0. discriminate E0.
        -- rewrite (client_transfer_carried_out db client_from ct client_to_id amount
                      Hf G Hk (or_introl N1) N2) in E0. discriminate E0.
      * exfalso. unfold find_client, bind_int in Hf. rewrite Hto in Hf.
        cbn in Hf. destruct (select_client db client_to_id); discriminate Hf.
    + intros [Hto|[ct [Hf [G H]]]].
      * exists OverflowError. unfold client_transfer.
        now rewrite (find_client_out_of_range db client_to_id Hto).
      * unfold client_transfer. rewrite Hf. cbn [bind]. rewrite G.
        cbn [Client.set_balance Client.append_movement Client.id Client.balance].
        unfold execute_update_balance at 1. unfold bind_int.
        destruct H as [Hk|[[N1 Hr]|N2]].
        -- rewrite Hk. cbn [bind]. eauto.
        -- destruct (in_int64 (Client.id client_from)); cbn [bind]; [|eauto].
           rewrite N1, Hr. cbn [andb bind]. eauto.
        -- destruct (in_int64 (Client.id client_from)); cbn [bind]; [|eauto].
           destruct (is_nan (Client.balance client_from - amount)%float &&
                     has_row db (Client.id client_from)); cbn [bind]; [eauto|].
           unfold execute_update_balance, bind_int.
           rewrite (find_client_id _ _ _ Hf), (find_client_in_range _ _ _ Hf). cbn [bind].
           rewrite N2, has_row_update_balance, (find_client_has_row _ _ _ Hf).
           cbn [andb bind]. eauto.
Qed.

(** ** Creating an account *)

(** X4. [create_account] followed by [find_client], when the identifier
    that follows the largest one in use is one SQLite can hold: the
    identifier given to the new account was not in use, a lookup of it
    returns the new account with the given name and occupation, balance 0
    and no movement, and the lookup of every other identifier answers as
    before; the movements table is not touched. *)
Theorem create_then_find (db : Db) (first_name : string) (occupation : option string) :
  in_int64 (next_rowid (clients db)) = true ->
  find_client db (next_rowid (clients db)) = Ok None /\
  find_client (create_account db first_name occupation) (next_rowid (clients db)) =
    Ok (Some (Client.init (next_rowid (clients db)) first_name 0 occupation)) /\
  (forall j, j <> next_rowid (clients db) ->
     find_client (create_account db first_name occupation) j = find_client db j) /\
  movements (create_account db first_name occupation) = movements db.
Proof.
  intros Hk. pose proof (select_next_rowid db) as Hnew.
  split; [|split; [|split; [|reflexivity]]].
  - apply find_client_None. now split.
  - rewrite (find_client_row _ _ Hk). unfold create_account.
    now rewrite select_insert_client, Hnew, Z.eqb_refl.
  - intros j Hj. unfold find_client, create_account.
    rewrite select_insert_client.
    destruct (select_client db j); [reflexivity|].
    replace (next_rowid (clients db) =? j) with false
      by (symmetry; apply Z.eqb_neq; congruence).
    reflexivity.
Qed.

Lemma create_then_find_witness :
  in_int64 (next_rowid (clients alice_db)) = true /\
  find_client alice_db 2 = Ok None /\
  find_client (create_account alice_db "Bob" (Some "")) 2 =
    Ok (Some (Client.init 2 "Bob" 0 (Some ""))) /\
  find_client (create_account alice_db "Bob" (Some "")) 1 = find_client alice_db 1.
Proof.
  split; [reflexivity|].
  destruct (create_then_find alice_db "Bob" (Some "") eq_refl) as [H1 [H2 [H3 _]]].
  split; [exact H1|]. split; [exact H2|]. apply H3. discriminate.
Defined.

(** ** What a session touches *)

Lemma effect_frame (db db' : Db) (c c' : Client.t) (a : ClientActions) (k : Z) :
  k <> Client.id c -> not_to_self k a = true ->
  effect db c a c' db' ->
  select_client db' k = select_client db k /\
  movements_of db' k = movements_of db k.
Proof.
  intros Hk Ha He.
  destruct He as [a|x G Hi Hb|x Hi Hb|t x ct Hf G Hi Hb Hb2].
  - split; reflexivity.
  - unfold withdrawn. split.
    + change (select_client (update_balance db (Client.balance c - x) (Client.id c)) k
              = select_client db k).
      now apply select_update_other.
    + now rewrite movements_of_insert_other by congruence.
  - unfold deposited. split.
    + change (select_client (update_balance db (Client.balance c + x) (Client.id c)) k
              = select_client db k).
      now apply select_update_other.
    + now rewrite movements_of_insert_other by congruence.
  - cbn [not_to_self] in Ha. apply negb_true_iff, Z.eqb_neq in Ha.
    pose proof (find_client_id _ _ _ Hf) as Hct.
    unfold transferred. rewrite Hct. split.
    + change (select_client
                (update_balance (update_balance db (Client.balance c - x) (Client.id c))
                   (Client.balance ct + x) t) k = select_client db k).
      rewrite select_update_other by congruence.
      now apply select_update_other.
    + rewrite movements_of_insert_other by congruence.
      rewrite movements_of_insert_other by congruence.
      reflexivity.
Qed.

(** X5. A session of account [c] changes nothing of a third account: for
    an identifier [k] other than the session's, to which the session makes
    no transfer, the row of [k] and the movements of [k] are after the
    session what they were before. *)
Theorem session_leaves_others (session : list ClientActions) :
  forall (db : Db) (c : Client.t) (k : Z),
  k <> Client.id c ->
  forallb (not_to_self k) session = true ->
  select_client (snd (final (client_loop db c session))) k = select_client db k /\
  movements_of (snd (final (client_loop db c session))) k = movements_of db k.
Proof.
  intros db c k Hk Hs.
  apply (client_loop_invariant
           (fun d => select_client d k = select_client db k /\
                     movements_of d k = movements_of db k)
           (fun _ x => k <> Client.id x)
           (fun _ => not_to_self k)); auto.
  intros d x a x' d' Ha [H1 H2] Hx He.
  destruct (effect_frame _ _ _ _ _ _ Hx Ha He) as [F1 F2].
  split; [split; congruence|]. now rewrite (effect_id _ _ _ _ _ He).
Qed.

Lemma session_leaves_others_witness :
  2 <> Client.id alice0 /\
  select_client
    (snd (final (client_loop alice_bob_db alice0 [DEPOSIT 50; WITHDRAW 20; TRANSFER 1 5])))
    2 = select_client alice_bob_db 2 /\
  movements_of
    (snd (final (client_loop alice_bob_db alice0 [DEPOSIT 50; WITHDRAW 20; TRANSFER 1 5])))
    2 = movements_of alice_bob_db 2.
Proof.
  assert (H : 2 <> Client.id alice0) by (cbn; lia).
  split; [exact H|].
  apply (session_leaves_others [DEPOSIT 50; WITHDRAW 20; TRANSFER 1 5]
           alice_bob_db alice0 2 H).
  reflexivity.
Defined.

Lemma update_balance_ids (db : Db) (b : float) (k : Z) :
  map row_id (clients (update_balance db b k)) = map row_id (clients db).
Proof.
  unfold update_balance. cbn [clients]. rewrite map_map.
  apply map_ext. intros r. now destruct (row_id r =? k).
Qed.

Lemma effect_appends (db db' : Db) (c c' : Client.t) (a : ClientActions) :
  effect db c a c' db' ->
  exists added,
    movements db' = movements db ++ added /\
    movements_seq db' = movements_seq db + Z.of_nat (List.length added) /\
    map row_id (clients db') = map row_id (clients db).
Proof.
  intros He. destruct He as [a|x G Hi Hb|x Hi Hb|t x ct Hf G Hi Hb Hb2].
  - exists []. rewrite app_nil_r. cbn. repeat split. lia.
  - eexists. unfold withdrawn. cbn [insert_movement movements movements_seq clients].
    split; [reflexivity|]. split; [cbn; lia|]. apply update_balance_ids.
  - eexists. unfold deposited. cbn [insert_movement movements movements_seq clients].
    split; [reflexivity|]. split; [cbn; lia|]. apply update_balance_ids.
  - eexists. unfold transferred. cbn [insert_movement movements movements_seq clients].
    split; [rewrite <- app_assoc; reflexivity|]. split; [cbn; lia|].
    rewrite update_balance_ids. apply update_balance_ids.
Qed.

(** X6. A session only appends to the movements table and neither creates
    nor removes an account: the table after the session is the table
    before it followed by the rows of the session, the AUTOINCREMENT
    counter has advanced by the number of those rows, and the identifiers
    in [clients] are the same, in the same order. *)
Theorem session_appends (session : list ClientActions) :
  forall (db : Db) (c : Client.t),
  exists added,
    movements (snd (final (client_loop db c session))) = movements db ++ added /\
    movements_seq (snd (final (client_loop db c session))) =
      movements_seq db + Z.of_nat (List.length added) /\
    map row_id (clients (snd (final (client_loop db c session)))) =
      map row_id (clients db).
Proof.
  intros db c.
  apply (client_loop_invariant
           (fun d => exists added,
                       movements d = movements db ++ added /\
                       movements_seq d = movements_seq db + Z.of_nat (List.length added) /\
                       map row_id (clients d) = map row_id (clients db))
           (fun _ _ => True) (fun _ _ => true) ) with (c := c) (session := session).
  - intros d x a x' d' _ [add1 [Hm1 [Hs1 Hi1]]] _ He. split; [|exact I].
    destruct (effect_appends _ _ _ _ _ He) as [add2 [Hm2 [Hs2 Hi2]]].
    exists (add1 ++ add2). split; [|split].
    + now rewrite Hm2, Hm1, app_assoc.
    + rewrite Hs2, Hs1, length_app, Nat2Z.inj_add. lia.
    + congruence.
  - apply forallb_const_true.
  - exists []. rewrite app_nil_r. cbn. repeat split. lia.
  - exact I.
Qed.

(** ** The object of a session and the stored state *)

Lemma client_loop_id (session : list ClientActions) :
  forall (db : Db) (c : Client.t),
  Client.id (fst (final (client_loop db c session))) = Client.id c.
Proof.
  induction session as [|a rest IH]; intros db c; [reflexivity|].
  cbn [client_loop].
  destruct (client_step db c a) as [[[c1 db1] o1]|e] eqn:E; [|reflexivity].
  cbn [final]. rewrite IH. exact (client_step_id _ _ _ _ _ _ E).
Qed.

Lemma effect_mirrors (db db' : Db) (c c' : Client.t) (a : ClientActions) :
  not_to_self (Client.id c) a = true -> mirrors db c ->
  effect db c a c' db' -> mirrors db' c'.
Proof.
  unfold mirrors. intros Ha [b [Hc Hb]] He.
  destruct He as [a|x G Hi Hb1|x Hi Hb1|t x ct Hf G Hi Hb1 Hb2].
  - now exists b.
  - exists (stored_real (Client.balance c - x)). split; [|apply stored_real_idem].
    unfold withdrawn. cbn [withdrawer Client.set_balance Client.append_movement Client.id].
    now rewrite persisted_insert_movement, persisted_update_balance, Z.eqb_refl, Hc.
  - exists (stored_real (Client.balance c + x)). split; [|apply stored_real_idem].
    unfold deposited. cbn [depositor Client.set_balance Client.append_movement Client.id].
    now rewrite persisted_insert_movement, persisted_update_balance, Z.eqb_refl, Hc.
  - exists (stored_real (Client.balance c - x)). split; [|apply stored_real_idem].
    cbn [not_to_self] in Ha. apply negb_true_iff, Z.eqb_neq in Ha.
    pose proof (find_client_id _ _ _ Hf) as Hct.
    cbn [sender Client.set_balance Client.append_movement Client.id].
    rewrite persisted_transferred, Hct.
    replace (Client.id c =? t) with false by (symmetry; apply Z.eqb_neq; congruence).
    now rewrite Z.eqb_refl, Hc.
Qed.

Lemma mirrors_find_client (db : Db) (k : Z) (c : Client.t) :
  find_client db k = Ok (Some c) -> mirrors db c.
Proof.
  intros Hf. exists (Client.balance c). split; [|reflexivity].
  rewrite (find_client_id _ _ _ Hf). exact (find_client_balance _ _ _ Hf).
Qed.

Lemma effect_shows_stored (db db' : Db) (c c' : Client.t) (a : ClientActions) :
  not_to_self (Client.id c) a = true -> shows_stored db c ->
  effect db c a c' db' -> shows_stored db' c'.
Proof.
  unfold shows_stored. intros Ha [Hc Hb] He.
  destruct He as [a|x G Hi Hb1|x Hi Hb1|t x ct Hf G Hi Hb1 Hb2].
  - now split.
  - pose proof (stored_real_sub _ x Hb) as Hs. split; [|exact Hs].
    unfold withdrawn. cbn [withdrawer Client.set_balance Client.append_movement Client.id
                             Client.balance].
    now rewrite persisted_insert_movement, persisted_update_balance, Z.eqb_refl, Hc, Hs.
  - pose proof (stored_real_add _ x Hb) as Hs. split; [|exact Hs].
    unfold deposited. cbn [depositor Client.set_balance Client.append_movement Client.id
                             Client.balance].
    now rewrite persisted_insert_movement, persisted_update_balance, Z.eqb_refl, Hc, Hs.
  - pose proof (stored_real_sub _ x Hb) as Hs. split; [|exact Hs].
    cbn [not_to_self] in Ha. apply negb_true_iff, Z.eqb_neq in Ha.
    pose proof (find_client_id _ _ _ Hf) as Hct.
    cbn [sender Client.set_balance Client.append_movement Client.id Client.balance].
    rewrite persisted_transferred, Hct.
    replace (Client.id c =? t) with false by (symmetry; apply Z.eqb_neq; congruence).
    now rewrite Z.eqb_refl, Hc, Hs.
Qed.

(** X7. Through a session that makes no transfer to its own account, the
    client object keeps showing the stored balance: for the object that
    [find_client] returned for [k], the balance of the object at the end
    of the session (the one "Check Balance" prints) and the balance stored
    in the row of [k] are the same number but for the sign of a zero; and
    they are the same number when the balance read at the start is one that
    a REAL column gives back (as it is in a database written by SQLite). *)
Theorem session_balance_is_stored
    (db : Db) (k : Z) (c : Client.t) (session : list ClientActions) :
  find_client db k = Ok (Some c) ->
  forallb (not_to_self k) session = true ->
  (exists b,
     persisted_balance (snd (final (client_loop db c session))) k = Some b /\
     stored_real b = stored_real (Client.balance (fst (final (client_loop db c session)))))
  /\
  (stored_real (Client.balance c) = Client.balance c ->
   persisted_balance (snd (final (client_loop db c session))) k =
   Some (Client.balance (fst (final (client_loop db c session))))).
Proof.
  intros Hf Hs. pose proof (find_client_id _ _ _ Hf) as Hid.
  rewrite <- Hid in Hs. split.
  - assert (H : True /\ mirrors (snd (final (client_loop db c session)))
                          (fst (final (client_loop db c session)))).
    { apply (client_loop_invariant (fun _ => True) mirrors not_to_self); auto.
      - intros d x a x' d' Ha _ Hx He. split; [exact I|].
        exact (effect_mirrors _ _ _ _ _ Ha Hx He).
      - exact (mirrors_find_client _ _ _ Hf). }
    destruct H as [_ H]. unfold mirrors in H. now rewrite client_loop_id, Hid in H.
  - intros Hb.
    assert (H : True /\ shows_stored (snd (final (client_loop db c session)))
                          (fst (final (client_loop db c session)))).
    { apply (client_loop_invariant (fun _ => True) shows_stored not_to_self); auto.
      - intros d x a x' d' Ha _ Hx He. split; [exact I|].
        exact (effect_shows_stored _ _ _ _ _ Ha Hx He).
      - split; [|exact Hb]. rewrite Hid. exact (find_client_balance _ _ _ Hf). }
    destruct H as [_ [H _]]. now rewrite client_loop_id, Hid in H.
Qed.

Lemma session_balance_is_stored_witness :
  find_client alice_bob_db 1 = Ok (Some alice0) /\
  stored_real (Client.balance alice0) = Client.balance alice0 /\
  persisted_balance
    (snd (final (client_loop alice_bob_db alice0
                   [DEPOSIT 50; TRANSFER 2 20; WITHDRAW 100; WITHDRAW 5]))) 1 =
  Some (Client.balance
          (fst (final (client_loop alice_bob_db alice0
                         [DEPOSIT 50; TRANSFER 2 20; WITHDRAW 100; WITHDRAW 5])))).
Proof.
  split; [reflexivity|]. split; [reflexivity|].
  apply (session_balance_is_stored alice_bob_db 1 alice0
           [DEPOSIT 50; TRANSFER 2 20; WITHDRAW 100; WITHDRAW 5]); reflexivity.
Defined.

Lemma effect_counts (db db' : Db) (c c' : Client.t) (a : ClientActions) :
  not_to_self (Client.id c) a = true ->
  effect db c a c' db' ->
  (List.length (movements_of db' (Client.id c)) + List.length (Client.movements c)
   = List.length (movements_of db (Client.id c)) + List.length (Client.movements c'))%nat.
Proof.
  intros Ha He.
  destruct He as [a|x G Hi Hb1|x Hi Hb1|t x ct Hf G Hi Hb1 Hb2].
  - reflexivity.
  - unfold withdrawn, withdrawer.
    cbn [Client.set_balance Client.append_movement Client.movements].
    rewrite movements_of_insert_same, !length_app. cbn [List.length].
    change (movements_of (update_balance db (Client.balance c - x) (Client.id c)) (Client.id c))
      with (movements_of db (Client.id c)).
    lia.
  - unfold deposited, depositor.
    cbn [Client.set_balance Client.append_movement Client.movements].
    rewrite movements_of_insert_same, !length_app. cbn [List.length].
    change (movements_of (update_balance db (Client.balance c + x) (Client.id c)) (Client.id c))
      with (movements_of db (Client.id c)).
    lia.
  - cbn [not_to_self] in Ha. apply negb_true_iff, Z.eqb_neq in Ha.
    pose proof (find_client_id _ _ _ Hf) as Hct.
    unfold transferred, sender.
    cbn [Client.set_balance Client.append_movement Client.movements].
    rewrite Hct, movements_of_insert_other by exact Ha.
    rewrite movements_of_insert_same, !length_app. cbn [List.length].
    change (movements_of
              (update_balance (update_balance db (Client.balance c - x) (Client.id c))
                 (Client.balance ct + x) t) (Client.id c))
      with (movements_of db (Client.id c)).
    lia.
Qed.

(** X8. What "Show Movements" can list: in a session on the object that
    [find_client] returned for [k], without transfer to [k] itself, the
    list of the object holds at every moment exactly as many entries as
    the session has added rows of [k] to the movements table. *)
Theorem session_list_counts_session_rows (session : list ClientActions) :
  forall (db : Db) (k : Z) (c : Client.t),
  find_client db k = Ok (Some c) ->
  forallb (not_to_self k) session = true ->
  List.length (movements_of (snd (final (client_loop db c session))) k) =
  (List.length (movements_of db k)
   + List.length (Client.movements (fst (final (client_loop db c session)))))%nat.
Proof.
  intros db k c Hf Hs.
  pose proof (find_client_id _ _ _ Hf) as Hid.
  pose proof (find_client_movements _ _ _ Hf) as Hnil.
  rewrite <- Hid in Hs.
  assert (H : True /\
              (Client.id (fst (final (client_loop db c session))) = k /\
               List.length (movements_of (snd (final (client_loop db c session))) k) =
               (List.length (movements_of db k)
                + List.length (Client.movements
                                 (fst (final (client_loop db c session)))))%nat)).
  { apply (client_loop_invariant (fun _ => True)
             (fun d x => Client.id x = k /\
                         List.length (movements_of d k) =
                         (List.length (movements_of db k)
                          + List.length (Client.movements x))%nat)
             not_to_self); auto.
    - intros d x a x' d' Ha _ [Hx Hn] He. split; [exact I|].
      pose proof (effect_counts _ _ _ _ _ Ha He) as Hc.
      pose proof (effect_id _ _ _ _ _ He) as Hi. rewrite Hx in Hc.
      split; [congruence|lia].
    - split; [exact Hid|]. rewrite Hnil. cbn [List.length]. lia. }
  exact (proj2 (proj2 H)).
Qed.

Lemma session_list_counts_session_rows_witness :
  find_client alice_db 1 = Ok (Some alice) /\
  List.length
    (movements_of
       (snd (final (client_loop alice_db alice [WITHDRAW 30; WITHDRAW 500; DEPOSIT 5]))) 1) =
  (List.length (movements_of alice_db 1)
   + List.length
       (Client.movements
          (fst (final (client_loop alice_db alice [WITHDRAW 30; WITHDRAW 500; DEPOSIT 5])))))%nat.
Proof.
  split; [reflexivity|].
  apply (session_list_counts_session_rows [WITHDRAW 30; WITHDRAW 500; DEPOSIT 5]
           alice_db 1 alice); reflexivity.
Defined.

(** ** Invariants of the tables over every run *)

Lemma select_same_ids (db db' : Db) (k : Z) :
  map row_id (clients db') = map row_id (clients db) ->
  (select_client db' k = None <-> select_client db k = None).
Proof.
  intros H. rewrite !select_client_None, H. reflexivity.
Qed.

Lemma effect_ids (db db' : Db) (c c' : Client.t) (a : ClientActions) :
  effect db c a c' db' -> map row_id (clients db') = map row_id (clients db).
Proof.
  intros He. destruct (effect_appends _ _ _ _ _ He) as [added [_ [_ H]]]. exact H.
Qed.

Lemma no_orphans_update_balance (db : Db) (b : float) (k : Z) :
  no_orphans db -> no_orphans (update_balance db b k).
Proof.
  intros H m Hm Hsel. apply (H m Hm). now apply select_update_None in Hsel.
Qed.

Lemma no_orphans_insert_movement (db : Db) (k : Z) (action : string) (amount : float) :
  select_client db k <> None -> no_orphans db ->
  no_orphans (insert_movement db k action amount).
Proof.
  intros Hk H m Hm. unfold insert_movement in Hm. cbn [movements] in Hm.
  apply in_app_or in Hm. destruct Hm as [Hm|[<-|[]]].
  - exact (H m Hm).
  - exact Hk.
Qed.

Lemma no_orphans_effect (db db' : Db) (c c' : Client.t) (a : ClientActions) :
  no_orphans db -> select_client db (Client.id c) <> None ->
  effect db c a c' db' -> no_orphans db'.
Proof.
  intros Hdb Hc He.
  assert (Hupd : forall d b k j,
             select_client d j <> None -> select_client (update_balance d b k) j <> None).
  { intros d b k j Hj E. apply Hj. now apply select_update_None in E. }
  destruct He as [a|x G Hi Hb1|x Hi Hb1|t x ct Hf G Hi Hb1 Hb2].
  - exact Hdb.
  - unfold withdrawn. apply no_orphans_insert_movement; [now apply Hupd|].
    now apply no_orphans_update_balance.
  - unfold deposited. apply no_orphans_insert_movement; [now apply Hupd|].
    now apply no_orphans_update_balance.
  - assert (Ht : select_client db (Client.id ct) <> None).
    { rewrite (find_client_id _ _ _ Hf). apply has_row_select.
      exact (find_client_has_row _ _ _ Hf). }
    unfold transferred.
    apply no_orphans_insert_movement; [now do 2 apply Hupd|].
    apply no_orphans_insert_movement; [now do 2 apply Hupd|].
    now do 2 apply no_orphans_update_balance.
Qed.

Lemma select_insert_client_None (db : Db) (n : string) (b : float) (o : option string)
    (j : Z) :
  select_client (insert_client db n b o) j = None -> select_client db j = None.
Proof.
  rewrite !select_client_None. unfold insert_client. cbn [clients].
  rewrite map_app. intros H Hin. apply H. apply in_or_app. now left.
Qed.

Lemma no_orphans_create_account (db : Db) (n : string) (o : option string) :
  no_orphans db -> no_orphans (create_account db n o).
Proof.
  intros H m Hm Hsel. apply (H m Hm).
  now apply select_insert_client_None in Hsel.
Qed.

Lemma no_orphans_close_account (db db' : Db) (k : Z) :
  no_orphans db -> close_account db k = Ok db' -> no_orphans db'.
Proof.
  intros H Hc. apply close_account_Ok in Hc. destruct Hc as [_ ->].
  intros m Hm. unfold delete_movements in Hm. cbn [movements] in Hm.
  apply filter_In in Hm. destruct Hm as [Hm Hne]. apply negb_true_iff in Hne.
  change (select_client (delete_client db k) (mov_client_id m) <> None).
  rewrite select_delete_client, Hne. exact (H m Hm).
Qed.

(** X9. Referential integrity: on every run of [main], whatever is typed
    in, every row of the movements table keeps naming an account that has
    a row in [clients], provided this held at the start (as it does in an
    empty database). *)
Theorem movements_always_have_an_account (input : list BankActions) :
  forall db : Db,
  no_orphans db -> no_orphans (final (main db input)).
Proof.
  intros db Hdb.
  apply (main_invariant no_orphans
           (fun d c => select_client d (Client.id c) <> None)
           (fun _ _ => true) (fun _ => true)).
  - intros k session _. apply forallb_const_true.
  - intros d k c _ Hf. rewrite (find_client_id _ _ _ Hf).
    apply has_row_select. exact (find_client_has_row _ _ _ Hf).
  - intros d c a c' d' _ Hd Hc He. split.
    + exact (no_orphans_effect _ _ _ _ _ Hd Hc He).
    + rewrite (effect_id _ _ _ _ _ He).
      intros E. apply Hc. exact (proj1 (select_same_ids _ _ _ (effect_ids _ _ _ _ _ He)) E).
  - intros d n o _. apply no_orphans_create_account.
  - intros d k d'. apply no_orphans_close_account.
  - exact Hdb.
  - apply forallb_const_true.
Qed.

Lemma movements_always_have_an_account_witness :
  no_orphans empty_db /\
  no_orphans
    (final (main empty_db
              [CREATE_ACCOUNT "Alice" ""; CREATE_ACCOUNT "Bob" "";
               CLIENT_ACTIONS 1 [DEPOSIT 50; TRANSFER 2 20; TRANSFER 1 10];
               CLOSE_ACCOUNT 1; CLIENT_ACTIONS 2 [TRANSFER 1 5; WITHDRAW 3]])).
Proof.
  assert (H : no_orphans empty_db) by (intros m []).
  split; [exact H|].
  exact (movements_always_have_an_account
           [CREATE_ACCOUNT "Alice" ""; CREATE_ACCOUNT "Bob" "";
            CLIENT_ACTIONS 1 [DEPOSIT 50; TRANSFER 2 20; TRANSFER 1 10];
            CLOSE_ACCOUNT 1; CLIENT_ACTIONS 2 [TRANSFER 1 5; WITHDRAW 3]]
           empty_db H).
Defined.

Lemma NoDup_snoc {A : Type} (l : list A) (x : A) :
  NoDup l -> ~ In x l -> NoDup (l ++ [x]).
Proof.
  induction l as [|y l IH]; intros Hl Hx; cbn [app].
  - constructor; [intros []|constructor].
  - inversion Hl as [|? ? Hy Hl']; subst. constructor.
    + intros Hin. apply in_app_or in Hin. destruct Hin as [Hin|[->|[]]].
      * contradiction.
      * apply Hx. now left.
    + apply IH; [exact Hl'|]. intros Hin. apply Hx. now right.
Qed.

Lemma filter_keeps_distinct {X Y : Type} (key : X -> Y) (keep : X -> bool) (xs : list X) :
  NoDup (map key xs) -> NoDup (map key (filter keep xs)).
Proof.
  induction xs as [|x xs IH]; cbn [filter map]; intros Hdistinct; [constructor|].
  apply NoDup_cons_iff in Hdistinct. destruct Hdistinct as [Hfresh Hrest].
  destruct (keep x); [|now apply IH].
  cbn [map]. apply NoDup_cons; [|now apply IH].
  rewrite in_map_iff. intros [z [Hz Hin]].
  apply Hfresh. rewrite <- Hz. apply in_map.
  apply filter_In in Hin. tauto.
Qed.

(** X10. The identifiers of [clients] stay pairwise different on every
    run of [main]: [create_account] always receives an identifier that no
    row carries. *)
Theorem client_ids_stay_unique (input : list BankActions) :
  forall db : Db,
  unique_ids db -> unique_ids (final (main db input)).
Proof.
  intros db Hdb.
  apply (main_invariant unique_ids (fun _ _ => True) (fun _ _ => true) (fun _ => true)).
  - intros k session _. apply forallb_const_true.
  - trivial.
  - intros d c a c' d' _ Hd _ He. split; [|exact I].
    unfold unique_ids. now rewrite (effect_ids _ _ _ _ _ He).
  - intros d n o _ Hd. unfold unique_ids, create_account, insert_client.
    cbn [clients]. rewrite map_app. cbn [map row_id].
    apply NoDup_snoc; [exact Hd|].
    apply select_client_None. apply select_next_rowid.
  - intros d k d' Hd Hc. apply close_account_Ok in Hc. destruct Hc as [_ ->].
    unfold unique_ids, delete_movements, delete_client.
    cbn [clients]. now apply filter_keeps_distinct.
  - exact Hdb.
  - apply forallb_const_true.
Qed.

Lemma client_ids_stay_unique_witness :
  unique_ids empty_db /\
  unique_ids
    (final (main empty_db
              [CREATE_ACCOUNT "Alice" ""; CREATE_ACCOUNT "Bob" ""; CLOSE_ACCOUNT 2;
               CREATE_ACCOUNT "Carol" ""; CLIENT_ACTIONS 2 [DEPOSIT 5]])).
Proof.
  assert (H : unique_ids empty_db) by constructor.
  split; [exact H|].
  exact (client_ids_stay_unique
           [CREATE_ACCOUNT "Alice" ""; CREATE_ACCOUNT "Bob" ""; CLOSE_ACCOUNT 2;
            CREATE_ACCOUNT "Carol" ""; CLIENT_ACTIONS 2 [DEPOSIT 5]]
           empty_db H).
Defined.

Lemma movement_ids_insert (db : Db) (k : Z) (action : string) (amount : float) :
  movement_ids_ok db -> movement_ids_ok (insert_movement db k action amount).
Proof.
  intros [Hnd Hle]. unfold movement_ids_ok, insert_movement.
  cbn [movements movements_seq]. split.
  - rewrite map_app. cbn [map mov_id]. apply NoDup_snoc; [exact Hnd|].
    intros Hin. apply in_map_iff in Hin. destruct Hin as [m [Hm Hin]].
    specialize (Hle m Hin). lia.
  - intros m Hm. apply in_app_or in Hm. destruct Hm as [Hm|[<-|[]]].
    + specialize (Hle m Hm). lia.
    + cbn. lia.
Qed.

Lemma movement_ids_effect (db db' : Db) (c c' : Client.t) (a : ClientActions) :
  movement_ids_ok db -> effect db c a c' db' -> movement_ids_ok db'.
Proof.
  intros H He. destruct He as [a|x G Hi Hb1|x Hi Hb1|t x ct Hf G Hi Hb1 Hb2].
  - exact H.
  - unfold withdrawn. apply movement_ids_insert. exact H.
  - unfold deposited. apply movement_ids_insert. exact H.
  - unfold transferred. do 2 apply movement_ids_insert. exact H.
Qed.

Lemma movement_ids_close_account (db db' : Db) (k : Z) :
  movement_ids_ok db -> close_account db k = Ok db' ->
  movement_ids_ok db' /\ movements_seq db' = movements_seq db.
Proof.
  intros [Hnd Hle] Hc. apply close_account_Ok in Hc. destruct Hc as [_ ->].
  unfold movement_ids_ok, delete_movements, delete_client.
  cbn [movements movements_seq]. split; [split|reflexivity].
  - now apply filter_keeps_distinct.
  - intros m Hm. apply filter_In in Hm. now apply Hle.
Qed.

(** X11. Movement identifiers on every run of [main]: the identifiers in
    the movements table stay pairwise different and at most the
    AUTOINCREMENT counter, and the counter never goes down, not even when
    [close_account] deletes rows; so an identifier of a deleted movement is
    not given out again (unlike the identifier of a closed account). *)
Theorem movement_ids_never_reused (input : list BankActions) :
  forall db : Db,
  movement_ids_ok db ->
  movement_ids_ok (final (main db input)) /\
  movements_seq db <= movements_seq (final (main db input)).
Proof.
  intros db Hdb.
  apply (main_invariant
           (fun d => movement_ids_ok d /\ movements_seq db <= movements_seq d)
           (fun _ _ => True) (fun _ _ => true) (fun _ => true)).
  - intros k session _. apply forallb_const_true.
  - trivial.
  - intros d c a c' d' _ [Hd Hs] _ He. split; [|exact I]. split.
    + exact (movement_ids_effect _ _ _ _ _ Hd He).
    + destruct (effect_appends _ _ _ _ _ He) as [added [_ [E _]]]. rewrite E. lia.
  - intros d n o _ Hd. exact Hd.
  - intros d k d' [Hd Hs] Hc.
    destruct (movement_ids_close_account _ _ _ Hd Hc) as [H1 H2].
    split; [exact H1|]. rewrite H2. exact Hs.
  - split; [exact Hdb|lia].
  - apply forallb_const_true.
Qed.

Lemma movement_ids_never_reused_witness :
  movement_ids_ok empty_db /\
  movement_ids_ok
    (final (main empty_db
              [CREATE_ACCOUNT "Alice" ""; CLIENT_ACTIONS 1 [DEPOSIT 50; WITHDRAW 20];
               CLOSE_ACCOUNT 1; CREATE_ACCOUNT "Bob" ""; CLIENT_ACTIONS 1 [DEPOSIT 7]])) /\
  movements_seq empty_db <=
  movements_seq
    (final (main empty_db
              [CREATE_ACCOUNT "Alice" ""; CLIENT_ACTIONS 1 [DEPOSIT 50; WITHDRAW 20];
               CLOSE_ACCOUNT 1; CREATE_ACCOUNT "Bob" ""; CLIENT_ACTIONS 1 [DEPOSIT 7]])).
Proof.
  assert (H : movement_ids_ok empty_db) by (split; [constructor|intros m []]).
  split; [exact H|].
  exact (movement_ids_never_reused
           [CREATE_ACCOUNT "Alice" ""; CLIENT_ACTIONS 1 [DEPOSIT 50; WITHDRAW 20];
            CLOSE_ACCOUNT 1; CREATE_ACCOUNT "Bob" ""; CLIENT_ACTIONS 1 [DEPOSIT 7]]
           empty_db H).
Defined.

(** ** Closing an account: the other accounts *)

Lemma length_filter_unique (rows : list client_row) (k : Z) :
  NoDup (map row_id rows) -> In k (map row_id rows) ->
  (List.length (filter (fun r => negb (row_id r =? k)%Z) rows) + 1 = List.length rows)%nat.
Proof.
  induction rows as [|r rs IH]; intros Hnd Hin; [destruct Hin|].
  cbn [map] in Hnd, Hin. inversion Hnd as [|? ? Hr Hrs]; subst.
  cbn [filter List.length]. destruct (row_id r =? k) eqn:E; cbn [negb List.length].
  - apply Z.eqb_eq in E. rewrite <- E in *.
    rewrite forallb_filter_id; [lia|].
    apply forallb_forall. intros x Hx. apply negb_true_iff, Z.eqb_neq.
    intros Ex. apply Hr. rewrite <- Ex. now apply in_map.
  - apply Z.eqb_neq in E. destruct Hin as [Hin|Hin]; [contradiction|].
    specialize (IH Hrs Hin). lia.
Qed.

(** X13. [close_account] on an existing account, with pairwise different
    identifiers in [clients]: the number of accounts (what [count_clients]
    shows) falls by one, and for every other identifier the row and the
    movements are what they were.  (The call raises, and stores nothing,
    when the identifier is one SQLite cannot hold.) *)
Theorem close_account_effect (db : Db) (client_id : Z) :
  unique_ids db ->
  select_client db client_id <> None ->
  exists db',
    close_account db client_id =
      (if in_int64 client_id then Ok db' else Raise OverflowError) /\
    (client_count db' + 1 = client_count db)%nat /\
    forall j, j <> client_id ->
      select_client db' j = select_client db j /\
      movements_of db' j = movements_of db j.
Proof.
  intros Hu Hf. exists (delete_movements (delete_client db client_id) client_id).
  split; [|split].
  - unfold close_account, bind_int. now destruct (in_int64 client_id).
  - unfold client_count, delete_movements, delete_client. cbn [clients].
    apply length_filter_unique; [exact Hu|].
    destruct (in_dec Z.eq_dec client_id (map row_id (clients db))) as [Hin|Hout]; [exact Hin|].
    exfalso. apply Hf. now apply select_client_None.
  - intros j Hj. split.
    + change (select_client (delete_client db client_id) j = select_client db j).
      rewrite select_delete_client.
      now replace (j =? client_id) with false by (symmetry; apply Z.eqb_neq; exact Hj).
    + rewrite movements_of_delete_movements.
      now replace (j =? client_id) with false by (symmetry; apply Z.eqb_neq; exact Hj).
Qed.

Lemma close_account_effect_witness :
  unique_ids alice100_bob_db /\
  select_client alice100_bob_db 2 <> None /\
  exists db',
    close_account alice100_bob_db 2 = Ok db' /\
    (client_count db' + 1 = client_count alice100_bob_db)%nat /\
    select_client db' 1 = select_client alice100_bob_db 1 /\
    movements_of db' 1 = movements_of alice100_bob_db 1.
Proof.
  assert (Hu : unique_ids alice100_bob_db).
  { unfold unique_ids. vm_compute. repeat constructor; cbn; intuition discriminate. }
  assert (Hf : select_client alice100_bob_db 2 <> None) by (vm_compute; discriminate).
  split; [exact Hu|]. split; [exact Hf|].
  destruct (close_account_effect alice100_bob_db 2 Hu Hf) as [db' [E [Hc Hframe]]].
  exists db'. split; [exact E|]. split; [exact Hc|]. apply Hframe. lia.
Defined.

(** X14. "Close Account" for an identifier that has no account: when
    every stored movement belongs to an existing account, nothing is
    stored and nothing is printed.  For an identifier SQLite can hold the
    choice is silently without effect and the menu is shown again; for
    another one the DELETE raises [OverflowError] and the program ends. *)
Theorem close_missing_account_is_silent (db : Db) (client_id : Z) :
  no_orphans db ->
  select_client db client_id = None ->
  bank_step db (CLOSE_ACCOUNT client_id) =
  Some (Ended db [] (if in_int64 client_id then None else Some OverflowError)).
Proof.
  intros Ho Hf. cbn [bank_step]. unfold close_account, bind_int.
  destruct (in_int64 client_id); cbn [bind]; [|reflexivity]. do 2 f_equal.
  unfold delete_movements, delete_client. cbn [clients movements movements_seq].
  destruct db as [rows ms seq]. cbn [clients movements movements_seq] in *.
  f_equal; apply forallb_filter_id, forallb_forall.
  - intros r Hr. apply negb_true_iff, Z.eqb_neq. intros E.
    apply select_client_None in Hf. apply Hf. cbn [clients]. rewrite <- E. now apply in_map.
  - intros m Hm. apply negb_true_iff, Z.eqb_neq. intros E.
    apply (Ho m Hm). now rewrite E.
Qed.

Lemma close_missing_account_is_silent_witness :
  no_orphans alice100_bob_db /\
  select_client alice100_bob_db 7 = None /\
  select_client alice100_bob_db (2 ^ 63) = None /\
  bank_step alice100_bob_db (CLOSE_ACCOUNT 7) = Some (Ended alice100_bob_db [] None) /\
  bank_step alice100_bob_db (CLOSE_ACCOUNT (2 ^ 63)) =
    Some (Ended alice100_bob_db [] (Some OverflowError)).
Proof.
  assert (Ho : no_orphans alice100_bob_db).
  { intros m Hm. vm_compute in Hm. destruct Hm as [<-|[]]. vm_compute. discriminate. }
  split; [exact Ho|]. split; [reflexivity|]. split; [reflexivity|]. split.
  - apply (close_missing_account_is_silent alice100_bob_db 7 Ho). reflexivity.
  - apply (close_missing_account_is_silent alice100_bob_db (2 ^ 63) Ho). reflexivity.
Defined.

(** ** Runs in several parts *)




Lemma client_loop_app (s1 : list ClientActions) :
  forall (db : Db) (c : Client.t) (s2 : list ClientActions),
  (raised (client_loop db c s1) = None ->
   final (client_loop db c (s1 ++ s2)) =
     final (client_loop (snd (final (client_loop db c s1)))
              (fst (final (client_loop db c s1))) s2) /\
   raised (client_loop db c (s1 ++ s2)) =
     raised (client_loop (snd (final (client_loop db c s1)))
               (fst (final (client_loop db c s1))) s2))
  /\
  (raised (client_loop db c s1) <> None ->
   final (client_loop db c (s1 ++ s2)) = final (client_loop db c s1) /\
   raised (client_loop db c (s1 ++ s2)) = raised (client_loop db c s1)).
Proof.
  induction s1 as [|a rest IH]; intros db c s2.
  - cbn [app client_loop final raised fst snd]. split; [intros _; split; reflexivity|].
    intros E. now contradiction E.
  - cbn [app client_loop].
    destruct (client_step db c a) as [[[c1 db1] o1]|e] eqn:E.
    + cbn [final raised]. exact (IH db1 c1 s2).
    + cbn [final raised]. split; [discriminate|]. intros _. split; reflexivity.
Qed.

Lemma update_balance_alike (db : Db) (b b' : float) (k : Z) :
  stored_real b = stored_real b' -> update_balance db b k = update_balance db b' k.
Proof. unfold update_balance. now intros ->. Qed.

Lemma execute_update_balance_alike (db : Db) (b b' : float) (k : Z) :
  stored_real b = stored_real b' ->
  execute_update_balance db b k = execute_update_balance db b' k.
Proof.
  intros H. unfold execute_update_balance.
  now rewrite (is_nan_alike _ _ H), (update_balance_alike db b b' k H).
Qed.

(** Two objects for the same account state take a step of the client menu
    to the same database and, again, to objects for the same account
    state; or the step raises the same exception for both. *)
Lemma client_step_same_account (db : Db) (c c' : Client.t) (a : ClientActions) :
  same_account c c' ->
  match client_step db c a, client_step db c' a with
  | Ok (c1, d1, _), Ok (c1', d1', _) => d1 = d1' /\ same_account c1 c1'
  | Raise e, Raise e' => e = e'
  | _, _ => False
  end.
Proof.
  intros [Hid Hb].
  assert (Hsame : same_account c c') by (split; assumption).
  destruct a as [x|x|t x| |]; cbn [client_step]; auto.
  - unfold client_withdraw. rewrite <- (leb_alike x _ _ Hb).
    destruct (x <=? Client.balance c)%float; [|auto].
    cbn [Client.set_balance Client.append_movement Client.id Client.balance].
    rewrite <- Hid.
    rewrite <- (execute_update_balance_alike db _ _ (Client.id c) (sub_alike _ _ x Hb)).
    destruct (execute_update_balance db _ _) as [d1|e]; cbn [bind]; [|reflexivity].
    destruct (execute_insert_movement d1 _ _ _) as [d2|e]; cbn [bind]; [|reflexivity].
    split; [reflexivity|]. split; cbn; [exact Hid|]. now apply sub_alike.
  - unfold client_deposit.
    cbn [Client.set_balance Client.append_movement Client.id Client.balance].
    rewrite <- Hid.
    rewrite <- (execute_update_balance_alike db _ _ (Client.id c) (add_alike _ _ x Hb)).
    destruct (execute_update_balance db _ _) as [d1|e]; cbn [bind]; [|reflexivity].
    destruct (execute_insert_movement d1 _ _ _) as [d2|e]; cbn [bind]; [|reflexivity].
    split; [reflexivity|]. split; cbn; [exact Hid|]. now apply add_alike.
  - unfold client_transfer.
    destruct (find_client db t) as [[ct|]|e]; cbn [bind]; [|auto|reflexivity].
    rewrite <- (leb_alike x _ _ Hb).
    destruct (x <=? Client.balance c)%float; [|auto].
    cbn [Client.set_balance Client.append_movement Client.id Client.balance].
    rewrite <- Hid.
    rewrite <- (execute_update_balance_alike db _ _ (Client.id c) (sub_alike _ _ x Hb)).
    destruct (execute_update_balance db _ _) as [d1|e]; cbn [bind]; [|reflexivity].
    destruct (execute_update_balance d1 _ _) as [d2|e]; cbn [bind]; [|reflexivity].
    destruct (execute_insert_movement d2 _ _ _) as [d3|e]; cbn [bind]; [|reflexivity].
    destruct (execute_insert_movement d3 _ _ _) as [d4|e]; cbn [bind]; [|reflexivity].
    split; [reflexivity|]. split; cbn; [exact Hid|]. now apply sub_alike.
Qed.

Lemma client_loop_same_account (session : list ClientActions) :
  forall (db : Db) (c c' : Client.t),
  same_account c c' ->
  snd (final (client_loop db c session)) = snd (final (client_loop db c' session)) /\
  raised (client_loop db c session) = raised (client_loop db c' session).
Proof.
  induction session as [|a rest IH]; intros db c c' H; [split; reflexivity|].
  pose proof (client_step_same_account db c c' a H) as Hs.
  cbn [client_loop].
  destruct (client_step db c a) as [[[c1 d1] o1]|e];
    destruct (client_step db c' a) as [[[c1' d1'] o1']|e']; try contradiction.
  - destruct Hs as [<- Hc]. cbn [final raised]. exact (IH d1 c1 c1' Hc).
  - subst e'. split; reflexivity.
Qed.

(** X16. Leaving the client menu and entering it again: when the first
    part of a session makes no transfer to the session's own account, two
    sessions in a row on the same account leave the database, and end, as
    the one session made of both parts does. *)
Theorem session_in_two_parts (db : Db) (k : Z) (s1 s2 : list ClientActions) :
  forallb (not_to_self k) s1 = true ->
  final (main db [CLIENT_ACTIONS k s1; CLIENT_ACTIONS k s2]) =
    final (main db [CLIENT_ACTIONS k (s1 ++ s2)]) /\
  raised (main db [CLIENT_ACTIONS k s1; CLIENT_ACTIONS k s2]) =
    raised (main db [CLIENT_ACTIONS k (s1 ++ s2)]).
Proof.
  intros Hs. cbn [main bank_step].
  destruct (find_client db k) as [[c|]|e] eqn:Hf.
  - pose proof (find_client_id _ _ _ Hf) as Hid.
    pose proof (find_client_in_range _ _ _ Hf) as Hk.
    pose proof (client_loop_id s1 db c) as Hid1.
    assert (Hm : mirrors (snd (final (client_loop db c s1)))
                         (fst (final (client_loop db c s1)))).
    { rewrite <- Hid in Hs.
      apply (client_loop_invariant (fun _ => True) mirrors not_to_self); auto.
      - intros d x a x' d' Ha _ Hx He. split; [exact I|].
        exact (effect_mirrors _ _ _ _ _ Ha Hx He).
      - exact (mirrors_find_client _ _ _ Hf). }
    destruct (client_loop_app s1 db c s2) as [Happ Hstop].
    cbn [final printed raised].
    destruct (raised (client_loop db c s1)) as [e|] eqn:R1.
    + destruct Hstop as [F R]; [discriminate|].
      rewrite R. cbn [final raised]. now rewrite F.
    + destruct (Happ eq_refl) as [F R]. cbn [main bank_step final raised].
      destruct Hm as [b [Hp Hb]]. rewrite Hid1, Hid in Hp.
      unfold persisted_balance in Hp.
      destruct (select_client (snd (final (client_loop db c s1))) k) as [r|] eqn:Hr;
        [|discriminate].
      cbn in Hp. injection Hp as Hrb.
      rewrite (find_client_row _ k Hk), Hr. cbn [option_map].
      assert (Hsame : same_account
                        (Client.init (row_id r) (row_first_name r) (row_balance r)
                           (row_occupation r))
                        (fst (final (client_loop db c s1)))).
      { split; cbn [Client.init Client.id Client.balance].
        - rewrite (select_client_id _ _ _ Hr). congruence.
        - now rewrite Hrb. }
      destruct (client_loop_same_account s2 (snd (final (client_loop db c s1))) _ _ Hsame)
        as [Fd Rd].
      rewrite F, R, <- Rd.
      destruct (raised (client_loop (snd (final (client_loop db c s1)))
                          (Client.init (row_id r) (row_first_name r) (row_balance r)
                             (row_occupation r)) s2)) eqn:R2;
        cbn [final raised]; rewrite Fd; split; reflexivity.
  - cbn [final raised main bank_step]. rewrite Hf. cbn [final raised]. split; reflexivity.
  - cbn [final raised]. split; reflexivity.
Qed.

Lemma session_in_two_parts_witness :
  forallb (not_to_self 1) [WITHDRAW 30; TRANSFER 2 20] = true /\
  final (main alice100_bob_db
           [CLIENT_ACTIONS 1 [WITHDRAW 30; TRANSFER 2 20];
            CLIENT_ACTIONS 1 [WITHDRAW 50; DEPOSIT 1]]) =
  final (main alice100_bob_db
           [CLIENT_ACTIONS 1 ([WITHDRAW 30; TRANSFER 2 20] ++ [WITHDRAW 50; DEPOSIT 1])]).
Proof.
  split; [reflexivity|].
  apply (session_in_two_parts alice100_bob_db 1
           [WITHDRAW 30; TRANSFER 2 20] [WITHDRAW 50; DEPOSIT 1]).
  reflexivity.
Defined.

(** ** Choices of the menus *)

Ltac menu_member :=
  split;
  [ split; [discriminate|lia]
  | split; intros action;
    [ split; [intros [= <-]|destruct action; cbn; intros H; try lia]
    | intros [= <-] ];
    reflexivity ].

Ltac menu_none :=
  split; [split; [lia|reflexivity]|];
  split; intros action; [split|]; try discriminate;
  destruct action; cbn; lia.

(** X17. The two menus accept exactly the choices 1 to 6: [show_menu] and
    [show_client_menu] return the member whose value is the number typed
    and raise for every other number, so that each member reaches the
    branch of [main] written for it and the two final [else] branches
    ("Invalid action.") are never taken. *)
Theorem menus_accept_one_to_six :
  (forall choice,
     (show_menu choice = None <-> choice < 1 \/ 6 < choice) /\
     (forall action, show_menu choice = Some action <-> BankMenu.value action = choice) /\
     (forall action, show_menu choice = Some action -> main_branch action = choice))
  /\
  (forall choice,
     (show_client_menu choice = None <-> choice < 1 \/ 6 < choice) /\
     (forall action,
        show_client_menu choice = Some action <-> ClientMenu.value action = choice) /\
     (forall action, show_client_menu choice = Some action -> client_branch action = choice)).
Proof.
  split; intros choice.
  - unfold show_menu, BankMenu.of_value, BankMenu.members. cbn [find BankMenu.value].
    destruct (Z.eqb_spec 1 choice) as [<-|H1]; [menu_member|].
    destruct (Z.eqb_spec 2 choice) as [<-|H2]; [menu_member|].
    destruct (Z.eqb_spec 3 choice) as [<-|H3]; [menu_member|].
    destruct (Z.eqb_spec 4 choice) as [<-|H4]; [menu_member|].
    destruct (Z.eqb_spec 5 choice) as [<-|H5]; [menu_member|].
    destruct (Z.eqb_spec 6 choice) as [<-|H6]; [menu_member|].
    menu_none.
  - unfold show_client_menu, ClientMenu.of_value, ClientMenu.members.
    cbn [find ClientMenu.value].
    destruct (Z.eqb_spec 1 choice) as [<-|H1]; [menu_member|].
    destruct (Z.eqb_spec 2 choice) as [<-|H2]; [menu_member|].
    destruct (Z.eqb_spec 3 choice) as [<-|H3]; [menu_member|].
    destruct (Z.eqb_spec 4 choice) as [<-|H4]; [menu_member|].
    destruct (Z.eqb_spec 5 choice) as [<-|H5]; [menu_member|].
    destruct (Z.eqb_spec 6 choice) as [<-|H6]; [menu_member|].
    menu_none.
Qed.
